(** * Load shapes and stochastic users of the Sock Shop load generator

    A shallow embedding of [load-testing/src/load_shapes.py] and of the
    [SockShopUser] classes of [load-testing/src/locustfile*.py].

    Conventions.
    - A Python [int] is a [Z].
    - The value of [self.get_run_time()] is a Python [float]; every finite
      float is a rational number, and Python compares a float with an [int]
      exactly, so the run time is a [Q] and the comparisons of the source
      are comparisons of rationals.  The arithmetic of [RampLoad.tick] is
      the one of the interpreter: every operation on floats returns the
      exact result rounded to the nearest double, ties to even (module
      [Float64], where the rounding is written out on [Q]).
      [RampLoadBinary64] runs the same text on the binary64 numbers of the
      standard library and [RampLoadExact] in exact arithmetic, for
      comparison.
    - [tick] returns a pair [(users, rate)] or [None]; this is
      [option (Z * Z)].
    - A method reads and may write the attributes of [self]: it is a
      function from the object to a result and the object afterwards. *)

From Stdlib Require Import ZArith QArith Qround Qabs Qpower Lia Lqa List Sorted Bool String.
From Stdlib Require Import SpecFloat DecimalString.
Import ListNotations.

Local Open Scope Z_scope.

(** ** Methods: state passing over the attributes of [self] *)

Definition method (S A : Type) : Type := S -> A * S.

Definition ret {S A : Type} (a : A) : method S A := fun s => (a, s).

Definition bind {S A B : Type} (m : method S A) (k : A -> method S B) : method S B :=
  fun s => let (a, s') := m s in k a s'.

(** Reading an attribute, [self.f]. *)
Definition attr {S X : Type} (f : S -> X) : method S X := fun s => (f s, s).

(** Writing attributes, [self.f = v]. *)
Definition assign {S : Type} (upd : S -> S) : method S unit := fun s => (tt, upd s).

Declare Scope method_scope.
Delimit Scope method_scope with method.
Notation "x <- m ;; k" := (bind m (fun x => k))
  (at level 61, m at next level, right associativity) : method_scope.
Notation "m ;;; k" := (bind m (fun _ => k))
  (at level 61, right associativity) : method_scope.

(** The value a call returns and the object it leaves behind. *)
Definition returned {S A : Type} (m : method S A) (self : S) : A := fst (m self).
Definition after {S A : Type} (m : method S A) (self : S) : S := snd (m self).

(** ** Comparisons between the run time and integer attributes *)

(** [run_time >= n] *)
Definition ge_int (run_time : Q) (n : Z) : bool := Qle_bool (inject_Z n) run_time.
(** [run_time < n] *)
Definition lt_int (run_time : Q) (n : Z) : bool := negb (Qle_bool (inject_Z n) run_time).
(** [run_time <= n] *)
Definition le_int (run_time : Q) (n : Z) : bool := Qle_bool run_time (inject_Z n).

(** A directive [(user_count, spawn_rate)]. *)
Definition directive : Type := Z * Z.

(** ** [class ConstantLoad]

    The shape classes read the same in [load_shapes.py], in
    [locustfile.py] and in the pattern file of each shape. *)

Module ConstantLoad.

Record self : Type := {
  user_count : Z;
  spawn_rate : Z;
  test_duration : Z
}.

Definition __init__ : self :=
  {| user_count := 50; spawn_rate := 5; test_duration := 600 |}.

Definition tick (run_time : Q) : method self (option directive) :=
  (d <- attr test_duration ;;
   if lt_int run_time d then
     u <- attr user_count ;;
     r <- attr spawn_rate ;;
     ret (Some (u, r))
   else
     ret None)%method.

End ConstantLoad.

(** ** [class StepLoad] *)

Module StepLoad.

(** [(start_time, user_count, spawn_rate)] *)
Definition step : Type := Z * Z * Z.

Record self : Type := {
  steps : list step;
  test_duration : Z
}.

Definition __init__ : self :=
  {| steps := [ (0, 100, 10); (120, 200, 20); (240, 100, 10);
                (360, 300, 30); (480, 50, 5) ];
     test_duration := 600 |}.

(** The [for] loop of [tick]: [current_step] is overwritten by every phase
    already reached, and the first phase not yet reached leaves the loop
    ([break]). *)
Fixpoint scan (run_time : Q) (l : list step) (current_step : directive) : directive :=
  match l with
  | [] => current_step
  | (start_time, user_count, spawn_rate) :: rest =>
      if ge_int run_time start_time
      then scan run_time rest (user_count, spawn_rate)
      else current_step
  end.

Definition tick (run_time : Q) : method self (option directive) :=
  (d <- attr test_duration ;;
   if ge_int run_time d then ret None
   else
     l <- attr steps ;;
     ret (Some (scan run_time l (50, 5))))%method.

End StepLoad.

(** ** [class SpikeLoad] *)

Module SpikeLoad.

(** [(spike_time, duration, peak_users)] *)
Definition spike : Type := Z * Z * Z.

Record self : Type := {
  spikes : list spike;
  base_users : Z;
  base_spawn_rate : Z;
  test_duration : Z
}.

Definition __init__ : self :=
  {| spikes := [ (60, 30, 15); (180, 30, 50); (300, 30, 100); (420, 30, 25) ];
     base_users := 10;
     base_spawn_rate := 2;
     test_duration := 600 |}.

(** [spike_time <= run_time < spike_time + duration] *)
Definition in_spike (run_time : Q) (w : spike) : bool :=
  let '(spike_time, duration, _) := w in
  ge_int run_time spike_time && lt_int run_time (spike_time + duration).

(** The [for] loop of [tick]: the first window that holds [run_time]
    returns from the method; [None] here means the loop ran to its end. *)
Fixpoint scan (run_time : Q) (l : list spike) : option directive :=
  match l with
  | [] => None
  | (spike_time, duration, peak_users) :: rest =>
      if in_spike run_time (spike_time, duration, peak_users)
      then Some (peak_users, 20)
      else scan run_time rest
  end.

Definition tick (run_time : Q) : method self (option directive) :=
  (d <- attr test_duration ;;
   if ge_int run_time d then ret None
   else
     l <- attr spikes ;;
     match scan run_time l with
     | Some peak => ret (Some peak)
     | None =>
         u <- attr base_users ;;
         r <- attr base_spawn_rate ;;
         ret (Some (u, r))
     end)%method.

End SpikeLoad.

(** ** Exceptions and Python's numeric operators on a float *)

Inductive exception : Type := ZeroDivisionError | OverflowError | ValueError.

Inductive outcome (A : Type) : Type :=
| Return (a : A)
| Raise (e : exception).
Arguments Return {A} a.
Arguments Raise {A} e.

(** [int(x)] of a float: truncation toward zero. *)
Definition int (x : Q) : Z := Z.quot (Qnum x) (Z.pos (Qden x)).

(** [x / n], true division of a float by an [int]. *)
Definition truediv (x : Q) (n : Z) : outcome Q :=
  if n =? 0 then Raise ZeroDivisionError else Return (x / inject_Z n)%Q.

(** ** Floats: rationals rounded to double precision

    A finite double is the rational it stands for.  Every arithmetic
    operation of IEEE 754 binary64 returns the exact result rounded to
    the nearest double, ties to the one with an even significand; a
    result of magnitude [2^1024] or more after rounding is an infinity.
    The sign of a zero is not kept: nothing below divides by a float
    zero. *)

Module Float64.

Definition pow2 (z : Z) : Q := (2 ^ z)%Q.

(** [floor (log2 |q|)] of a non-zero [q]. *)
Definition exponent (q : Q) : Z :=
  let e := Z.log2 (Z.abs (Qnum q)) - Z.log2 (Z.pos (Qden q)) in
  if Qle_bool (pow2 e) (Qabs q) then e else e - 1.

(** The exponent of the last place of the doubles around [q]: 53 bits of
    significand, and the subnormal spacing [2^-1074] at the bottom. *)
Definition scale (q : Q) : Z := Z.max (exponent q - 52) (-1074).

(** Rounding to the nearest integer, ties to the even one. *)
Definition rne (x : Q) : Z :=
  let f := Qfloor x in
  match (x - inject_Z f ?= 1 # 2)%Q with
  | Lt => f
  | Gt => f + 1
  | Eq => if Z.even f then f else f + 1
  end.

(** Rounding to the nearest double, on an unbounded range. *)
Definition RN (q : Q) : Q :=
  Qred (inject_Z (rne (q * pow2 (- scale q))) * pow2 (scale q)).

Inductive float : Type :=
| Finite (q : Q)
| Infinity (negative : bool)
| NaN.

Definition negative (q : Q) : bool := negb (Qle_bool 0 q).

(** The double of an exact result. *)
Definition fl (q : Q) : float :=
  let r := RN q in
  if Qle_bool (pow2 1024) (Qabs r) then Infinity (negative q) else Finite r.

(** The conversion of an [int] operand: correctly rounded, and
    [OverflowError] (int too large to convert to float) beyond the range. *)
Definition of_int (n : Z) : outcome float :=
  match fl (inject_Z n) with
  | Finite r => Return (Finite r)
  | _ => Raise OverflowError
  end.

Definition opp (a : float) : float :=
  match a with
  | Finite q => Finite (- q)
  | Infinity s => Infinity (negb s)
  | NaN => NaN
  end.

Definition add (a b : float) : float :=
  match a, b with
  | NaN, _ | _, NaN => NaN
  | Finite x, Finite y => fl (x + y)
  | Infinity s, Finite _ | Finite _, Infinity s => Infinity s
  | Infinity s, Infinity s' => if Bool.eqb s s' then Infinity s else NaN
  end.

Definition sub (a b : float) : float := add a (opp b).

Definition mul (a b : float) : float :=
  match a, b with
  | NaN, _ | _, NaN => NaN
  | Finite x, Finite y => fl (x * y)
  | Infinity s, Finite y | Finite y, Infinity s =>
      if Qeq_bool y 0 then NaN else Infinity (xorb s (negative y))
  | Infinity s, Infinity s' => Infinity (xorb s s')
  end.

(** Division by a finite double that is not zero. *)
Definition div (a : float) (y : Q) : float :=
  match a with
  | NaN => NaN
  | Infinity s => Infinity (xorb s (negative y))
  | Finite x => fl (x / y)
  end.

Definition and_then {A B : Type} (m : outcome A) (k : A -> outcome B) : outcome B :=
  match m with
  | Return a => k a
  | Raise e => Raise e
  end.

(** [x / n]: the [int] is converted, then a zero divisor raises. *)
Definition truediv (x : float) (n : Z) : outcome float :=
  and_then (of_int n) (fun d =>
    match d with
    | Finite y => if Qeq_bool y 0 then Raise ZeroDivisionError else Return (div x y)
    | _ => Return NaN
    end).

(** [x - n], [n + x], [n - x] and [n * x] with an [int] operand [n]. *)
Definition sub_int (x : float) (n : Z) : outcome float :=
  and_then (of_int n) (fun b => Return (sub x b)).
Definition int_add (n : Z) (x : float) : outcome float :=
  and_then (of_int n) (fun a => Return (add a x)).
Definition int_sub (n : Z) (x : float) : outcome float :=
  and_then (of_int n) (fun a => Return (sub a x)).
Definition int_mul (n : Z) (x : float) : outcome float :=
  and_then (of_int n) (fun a => Return (mul a x)).

(** [int(x)]: truncation toward zero; an infinity raises [OverflowError]
    and a NaN [ValueError]. *)
Definition int (x : float) : outcome Z :=
  match x with
  | Finite q => Return (int q)
  | Infinity _ => Raise OverflowError
  | NaN => Raise ValueError
  end.

(** The rationals that are doubles. *)
Definition is_double (q : Q) : Prop := (RN q == q)%Q /\ (Qabs q < pow2 1024)%Q.

End Float64.

Declare Scope outcome_scope.
Delimit Scope outcome_scope with outcome.
Notation "x <-! m ; k" := (Float64.and_then m (fun x => k))
  (at level 61, m at next level, right associativity) : outcome_scope.

(** ** [class RampLoad] *)

Module RampLoad.

Record self : Type := {
  ramp_up_duration : Z;
  peak_duration : Z;
  ramp_down_duration : Z;
  min_users : Z;
  max_users : Z;
  test_duration : Z
}.

Definition __init__ : self :=
  {| ramp_up_duration := 300;
     peak_duration := 120;
     ramp_down_duration := 180;
     min_users := 10;
     max_users := 150;
     test_duration := 600 |}.

Definition tick (run_time : Q) : method self (outcome (option directive)) :=
  (d <- attr test_duration ;;
   if ge_int run_time d then ret (Return None)
   else
     up <- attr ramp_up_duration ;;
     peak <- attr peak_duration ;;
     down <- attr ramp_down_duration ;;
     lo <- attr min_users ;;
     hi <- attr max_users ;;
     if le_int run_time up then
       (* Ramp up phase *)
       ret (progress <-! Float64.truediv (Float64.Finite run_time) up ;
            scaled <-! Float64.int_mul (hi - lo) progress ;
            total <-! Float64.int_add lo scaled ;
            current_users <-! Float64.int total ;
            let spawn_rate := 10 in
            Return (Some (current_users, spawn_rate)))%outcome
     else if le_int run_time (up + peak) then
       (* Peak phase *)
       let current_users := hi in
       let spawn_rate := 5 in
       ret (Return (Some (current_users, spawn_rate)))
     else if le_int run_time (up + peak + down) then
       (* Ramp down phase *)
       let ramp_down_start := up + peak in
       ret (elapsed <-! Float64.sub_int (Float64.Finite run_time) ramp_down_start ;
            progress <-! Float64.truediv elapsed down ;
            scaled <-! Float64.int_mul (hi - lo) progress ;
            total <-! Float64.int_sub hi scaled ;
            current_users <-! Float64.int total ;
            let spawn_rate := 8 in
            Return (Some (current_users, spawn_rate)))%outcome
     else
       ret (Return None))%method.

(** The path condition of the last [else: return None] of [tick]: the
    first guard and the three phase guards all fail. *)
Definition trailing_else (run_time : Q) (s : self) : bool :=
  negb (ge_int run_time (test_duration s))
  && negb (le_int run_time (ramp_up_duration s))
  && negb (le_int run_time (ramp_up_duration s + peak_duration s))
  && negb (le_int run_time
             (ramp_up_duration s + peak_duration s + ramp_down_duration s)).

End RampLoad.

(** The text of [RampLoad.tick] in exact arithmetic, no operation
    rounded: the population a reader of the formulas expects. *)
Module RampLoadExact.
Import RampLoad.

Definition tick (run_time : Q) : method self (outcome (option directive)) :=
  (d <- attr test_duration ;;
   if ge_int run_time d then ret (Return None)
   else
     up <- attr ramp_up_duration ;;
     peak <- attr peak_duration ;;
     down <- attr ramp_down_duration ;;
     lo <- attr min_users ;;
     hi <- attr max_users ;;
     if le_int run_time up then
       (* Ramp up phase *)
       match truediv run_time up with
       | Raise e => ret (Raise e)
       | Return progress =>
           let current_users := int (inject_Z lo + inject_Z (hi - lo) * progress)%Q in
           let spawn_rate := 10 in
           ret (Return (Some (current_users, spawn_rate)))
       end
     else if le_int run_time (up + peak) then
       (* Peak phase *)
       let current_users := hi in
       let spawn_rate := 5 in
       ret (Return (Some (current_users, spawn_rate)))
     else if le_int run_time (up + peak + down) then
       (* Ramp down phase *)
       let ramp_down_start := up + peak in
       match truediv (run_time - inject_Z ramp_down_start)%Q down with
       | Raise e => ret (Raise e)
       | Return progress =>
           let current_users := int (inject_Z hi - inject_Z (hi - lo) * progress)%Q in
           let spawn_rate := 8 in
           ret (Return (Some (current_users, spawn_rate)))
       end
     else
       ret (Return None))%method.

End RampLoadExact.

(** ** IEEE 754 double precision, as CPython computes on floats *)

Module Binary64.

Definition prec : Z := 53.
Definition emax : Z := 1024.

(** [float(n)] for an [int]; exact below [2^53]. *)
Definition of_int (n : Z) : spec_float := binary_normalize prec emax n 0 false.

Definition add : spec_float -> spec_float -> spec_float := SFadd prec emax.
Definition sub : spec_float -> spec_float -> spec_float := SFsub prec emax.
Definition mul : spec_float -> spec_float -> spec_float := SFmul prec emax.

Definition is_zero (x : spec_float) : bool :=
  match x with S754_zero _ => true | _ => false end.

(** [x / n] with an [int] divisor. *)
Definition truediv (x : spec_float) (n : Z) : outcome spec_float :=
  if is_zero (of_int n) then Raise ZeroDivisionError
  else Return (SFdiv prec emax x (of_int n)).

(** [int(x)]: truncation toward zero; infinities and NaN raise. *)
Definition int (x : spec_float) : outcome Z :=
  match x with
  | S754_zero _ => Return 0
  | S754_finite s m e =>
      let v := if 0 <=? e then Z.pos m * 2 ^ e else Z.quot (Z.pos m) (2 ^ (- e)) in
      Return (if s then - v else v)
  | S754_infinity _ => Raise OverflowError
  | S754_nan => Raise ValueError
  end.

(** [x >= n] and [x <= n] against an [int] (the ints of the shapes are far
    below [2^53], where the comparison with [float(n)] is the exact one). *)
Definition ge_int (x : spec_float) (n : Z) : bool := SFleb (of_int n) x.
Definition le_int (x : spec_float) (n : Z) : bool := SFleb x (of_int n).

End Binary64.

Module RampLoadBinary64.
Import RampLoad.

(** [RampLoad.tick] once more, on a [run_time] that is a double and with
    every operation rounded as the interpreter rounds it. *)
Definition tick (run_time : spec_float) : method self (outcome (option directive)) :=
  (d <- attr test_duration ;;
   if Binary64.ge_int run_time d then ret (Return None)
   else
     up <- attr ramp_up_duration ;;
     peak <- attr peak_duration ;;
     down <- attr ramp_down_duration ;;
     lo <- attr min_users ;;
     hi <- attr max_users ;;
     if Binary64.le_int run_time up then
       match Binary64.truediv run_time up with
       | Raise e => ret (Raise e)
       | Return progress =>
           match Binary64.int (Binary64.add (Binary64.of_int lo)
                                 (Binary64.mul (Binary64.of_int (hi - lo)) progress)) with
           | Raise e => ret (Raise e)
           | Return current_users => ret (Return (Some (current_users, 10)))
           end
       end
     else if Binary64.le_int run_time (up + peak) then
       ret (Return (Some (hi, 5)))
     else if Binary64.le_int run_time (up + peak + down) then
       let ramp_down_start := up + peak in
       match Binary64.truediv
               (Binary64.sub run_time (Binary64.of_int ramp_down_start)) down with
       | Raise e => ret (Raise e)
       | Return progress =>
           match Binary64.int (Binary64.sub (Binary64.of_int hi)
                                 (Binary64.mul (Binary64.of_int (hi - lo)) progress)) with
           | Raise e => ret (Raise e)
           | Return current_users => ret (Return (Some (current_users, 8)))
           end
       end
     else
       ret (Return None))%method.

End RampLoadBinary64.

(** ** The four shapes behind the one contract [tick] *)

Inductive shape : Type :=
| Constant (s : ConstantLoad.self)
| Step (s : StepLoad.self)
| Spike (s : SpikeLoad.self)
| Ramp (s : RampLoad.self).

Definition shape_tick (run_time : Q) : method shape (outcome (option directive)) :=
  fun sh =>
    match sh with
    | Constant s => let (r, s') := ConstantLoad.tick run_time s in (Return r, Constant s')
    | Step s => let (r, s') := StepLoad.tick run_time s in (Return r, Step s')
    | Spike s => let (r, s') := SpikeLoad.tick run_time s in (Return r, Spike s')
    | Ramp s => let (r, s') := RampLoad.tick run_time s in (r, Ramp s')
    end.

(** The caller's loop: one [tick] per reading of the clock, each on the
    object the previous call left. *)
Fixpoint ticks (run_times : list Q) : method shape (list (outcome (option directive))) :=
  match run_times with
  | [] => ret []
  | t :: rest =>
      (r <- shape_tick t ;;
       rs <- ticks rest ;;
       ret (r :: rs))%method
  end.

(** The shapes as their constructors build them. *)
Definition shapes : list shape :=
  [ Constant ConstantLoad.__init__; Step StepLoad.__init__;
    Spike SpikeLoad.__init__; Ramp RampLoad.__init__ ].

(** ** Well-formed schedules (the data-model invariant) *)

Fixpoint strictly_increasing (l : list Z) : bool :=
  match l with
  | [] => true
  | a :: rest =>
      match rest with
      | [] => true
      | b :: _ => (a <? b) && strictly_increasing rest
      end
  end.

Definition step_start (st : StepLoad.step) : Z := fst (fst st).
Definition step_directive (st : StepLoad.step) : directive := (snd (fst st), snd st).

Definition steps_well_formed (l : list StepLoad.step) : bool :=
  strictly_increasing (map step_start l)
  && forallb (fun st => (0 <=? snd (fst st)) && (0 <? snd st)) l.

(** Two windows [[s1, s1+d1)] and [[s2, s2+d2)] share an instant. *)
Definition overlap (w1 w2 : SpikeLoad.spike) : bool :=
  let '(s1, d1, _) := w1 in
  let '(s2, d2, _) := w2 in
  (s1 <? s2 + d2) && (s2 <? s1 + d1).

Fixpoint pairwise_disjoint (l : list SpikeLoad.spike) : bool :=
  match l with
  | [] => true
  | w :: rest => forallb (fun w' => negb (overlap w w')) rest && pairwise_disjoint rest
  end.

(** The phases already reached at [run_time], and the last of them. *)
Definition reached (run_time : Q) (st : StepLoad.step) : bool :=
  ge_int run_time (step_start st).

Definition last_reached (run_time : Q) (l : list StepLoad.step) (default : directive) : directive :=
  last (map step_directive (filter (reached run_time) l)) default.

(** The population of the ramp-up as the specification words it:
    [min + (max - min) * (t / up_duration)]. *)
Definition ramp_up_population (s : RampLoad.self) (t : Q) : Q :=
  (inject_Z (RampLoad.min_users s)
   + inject_Z (RampLoad.max_users s - RampLoad.min_users s)
     * (t / inject_Z (RampLoad.ramp_up_duration s)))%Q.

(** The user count of the ramp-up as the specification words it: that
    population, truncated to an integer. *)
Definition ramp_up_users (s : RampLoad.self) (t : Q) : Z :=
  Qfloor (ramp_up_population s t).

(** What the ramp-up and the ramp-down of the built-in ramp compute, one
    rounding for each operation of the source. *)
Definition ramp_up_count (t : Q) : Z :=
  int (Float64.RN (10 + Float64.RN (140 * Float64.RN (t / 300)))).

Definition ramp_down_count (t : Q) : Z :=
  int (Float64.RN (150 - Float64.RN (140 * Float64.RN (Float64.RN (t - 420) / 180)))).

Definition result_eqb (a b : outcome (option directive)) : bool :=
  match a, b with
  | Return None, Return None => true
  | Return (Some (u, r)), Return (Some (u', r')) => (u =? u') && (r =? r')
  | Raise ZeroDivisionError, Raise ZeroDivisionError => true
  | Raise OverflowError, Raise OverflowError => true
  | Raise ValueError, Raise ValueError => true
  | _, _ => false
  end.

(** The whole seconds [0, 1, ..., n - 1]. *)
Definition seconds (n : nat) : list Z := map Z.of_nat (seq 0 n).

(** The double [k / 16]. *)
Definition sixteenths (k : Z) : spec_float :=
  binary_normalize Binary64.prec Binary64.emax k (-4) false.

(** ** Python's module [random]

    The user classes call [random.choice] and [random.randint], the
    functions of the module: they all advance the one generator the
    interpreter keeps for the process.  The generator itself belongs to
    the Python library; it is a parameter here: a type of states and the
    draw of a number below a bound. *)

Record generator : Type := {
  gen_state : Type;
  randbelow : Z -> gen_state -> Z * gen_state
}.

(** ** [class SockShopUser] *)

Local Open Scope string_scope.

Definition item_ids : list string :=
  [ "a0eebc99-9c0b-4ef8-bb6d-6bb9bd380a11";
    "3395a43e-5d8d-4d79-ac8c-0d58e637d5e8";
    "03fef6c8-7c4f-4f69-8a7d-6e48d4c1db8e";
    "d3588630-ad8e-49df-b6f8-5e4f3c0e5e2e";
    "510a0d7e-8e83-4193-b483-e27e9ddc34d8";
    "808a2de1-1aaa-4c25-a9b9-79a93b77c087";
    "819e1fbf-a459-4c89-9e03-9b5d1a5fc1b0";
    "zzz4f044-ec42-4f2b-a2d8-7e4b3f4a5c6d" ].

Definition tags : list string :=
  [ "red"; "blue"; "black"; "white"; "brown"; "green"; "gray"; "purple" ].

(** The two texts of the class: [locustfile.py], and the one shared by
    [locustfile_constant.py], [locustfile_step.py], [locustfile_spike.py]
    and [locustfile_ramp.py]. *)
Inductive locustfile : Type := Basic | Pattern.

(** A request handed to [self.client]. *)
Inductive body : Type :=
| NoBody
| CartData (id : string) (quantity : Z).

Record request : Type := {
  verb : string;
  path : string;
  json : body;
  name : string
}.

(** The attributes [on_start] gives a user in the pattern files. *)
Record user_attrs : Type := {
  session_id : string;
  cart_items : list string;
  has_items_in_cart : bool
}.

(** The methods decorated with [@task]. *)
Inductive task : Type :=
| browse_home | browse_catalogue | browse_category | view_item
| add_to_cart | view_cart | checkout.

(** The argument of each [@task(n)]. *)
Definition weight (t : task) : nat :=
  match t with
  | browse_home => 25
  | browse_catalogue => 20
  | browse_category => 20
  | view_item => 20
  | add_to_cart => 10
  | view_cart => 8
  | checkout => 4
  end.

Definition tasks : list task :=
  [ browse_home; browse_catalogue; browse_category; view_item;
    add_to_cart; view_cart; checkout ].

Module SockShopUser.
Section Runtime.

Variable G : generator.

(** Everything the users of one process share or own: the generator of
    module [random], the requests sent so far (oldest first, each with the
    user that sent it) and the attributes of each user ([None] before
    [on_start] has set them). *)
Record world : Type := {
  rng : gen_state G;
  sent : list (nat * request);
  users : nat -> option user_attrs
}.

(** The target service: the status code of the reply to the last request
    of a history.  Nothing is assumed of it. *)
Definition server : Type := list (nat * request) -> Z.

Variable srv : server.
Variable file : locustfile.

Definition set_rng (g : gen_state G) (w : world) : world :=
  {| rng := g; sent := sent w; users := users w |}.
Definition set_sent (l : list (nat * request)) (w : world) : world :=
  {| rng := rng w; sent := l; users := users w |}.
Definition set_user (u : nat) (a : user_attrs) (w : world) : world :=
  {| rng := rng w; sent := sent w;
     users := fun v => if Nat.eqb v u then Some a else users w v |}.

(** [random.choice(seq)] on a non-empty list of strings. *)
Definition random_choice (seq : list string) : method world string :=
  fun w =>
    let (i, g) := randbelow G (Z.of_nat (List.length seq)) (rng w) in
    (nth (Z.to_nat i) seq "", set_rng g w).

(** [random.randint(a, b)] *)
Definition random_randint (a b : Z) : method world Z :=
  fun w =>
    let (i, g) := randbelow G (b - a + 1) (rng w) in
    (a + i, set_rng g w).

(** [self.client.get] and [self.client.post]: the request goes out and the
    reply's status code comes back. *)
Definition client_send (u : nat) (r : request) : method world Z :=
  fun w =>
    let history := (sent w ++ [(u, r)])%list in
    (srv history, set_sent history w).

Definition client_get (u : nat) (p n : string) : method world Z :=
  client_send u {| verb := "GET"; path := p; json := NoBody; name := n |}.

Definition client_post (u : nat) (p : string) (b : body) (n : string) : method world Z :=
  client_send u {| verb := "POST"; path := p; json := b; name := n |}.

(** [self.cart_items.append(item_id); self.has_items_in_cart = True];
    on a user whose attributes were never set the first statement raises
    and the task ends there. *)
Definition track_item (u : nat) (item_id : string) : method world unit :=
  fun w =>
    match users w u with
    | Some a =>
        (tt, set_user u {| session_id := session_id a;
                           cart_items := (cart_items a ++ [item_id])%list;
                           has_items_in_cart := true |} w)
    | None => (tt, w)
    end.

Definition on_start (u : nat) : method world unit :=
  match file with
  | Basic => ret tt
  | Pattern =>
      (n <- random_randint 1000 9999 ;;
       assign (set_user u
                 {| session_id := "session_" ++ NilZero.string_of_int (Z.to_int n);
                    cart_items := [];
                    has_items_in_cart := false |}))%method
  end.

Definition run_task (u : nat) (t : task) : method world unit :=
  match t with
  | browse_home =>
      (_ <- client_get u "/" "browse_home" ;; ret tt)%method
  | browse_catalogue =>
      (_ <- client_get u "/catalogue" "browse_catalogue" ;; ret tt)%method
  | browse_category =>
      (tag <- random_choice tags ;;
       _ <- client_get u ("/category.html?tags=" ++ tag) "browse_category" ;;
       ret tt)%method
  | view_item =>
      (item_id <- random_choice item_ids ;;
       _ <- client_get u ("/detail.html?id=" ++ item_id) "view_item" ;;
       ret tt)%method
  | add_to_cart =>
      (item_id <- random_choice item_ids ;;
       let cart_data := CartData item_id 1 in
       status_code <- client_post u "/cart" cart_data "add_to_cart" ;;
       match file with
       | Basic => ret tt
       | Pattern =>
           if (status_code =? 200)%Z then track_item u item_id else ret tt
       end)%method
  | view_cart =>
      (_ <- client_get u "/basket.html" "view_cart" ;; ret tt)%method
  | checkout =>
      (_ <- client_get u "/customer-orders.html" "checkout" ;; ret tt)%method
  end.

(** The methods of the class the runner calls: [on_start] once for a user,
    then the task method of each of its cycles.  How the task of a cycle is
    picked is in [get_next_task] below. *)
Inductive event : Type :=
| Start (u : nat)
| Cycle (u : nat) (t : task).

Definition event_user (e : event) : nat :=
  match e with Start u => u | Cycle u _ => u end.

Definition run_event (e : event) (w : world) : world :=
  match e with
  | Start u => after (on_start u) w
  | Cycle u t => after (run_task u t) w
  end.

Definition run (schedule : list event) (w : world) : world :=
  fold_left (fun w e => run_event e w) schedule w.

(** A process that has just seeded (or not seeded) its generator. *)
Definition fresh (g : gen_state G) : world :=
  {| rng := g; sent := []; users := fun _ => None |}.

(** The requests of one user, in the order sent. *)
Definition by_user (u : nat) (l : list (nat * request)) : list (nat * request) :=
  filter (fun p => Nat.eqb (fst p) u) l.

Definition requests_of (u : nat) (w : world) : list request :=
  map snd (by_user u (sent w)).

(** The events of one user in a schedule. *)
Definition events_of (u : nat) (schedule : list event) : list event :=
  filter (fun e => Nat.eqb (event_user e) u) schedule.

(** The request of a task method and the generator after the method of an
    event has run, read off the generator the method starts from. *)
Definition request_of (t : task) (g : gen_state G) : request :=
  match t with
  | browse_home =>
      {| verb := "GET"; path := "/"; json := NoBody; name := "browse_home" |}
  | browse_catalogue =>
      {| verb := "GET"; path := "/catalogue"; json := NoBody; name := "browse_catalogue" |}
  | browse_category =>
      {| verb := "GET";
         path := "/category.html?tags=" ++ nth (Z.to_nat (fst (randbelow G (Z.of_nat (List.length tags)) g))) tags "";
         json := NoBody; name := "browse_category" |}
  | view_item =>
      {| verb := "GET";
         path := "/detail.html?id=" ++ nth (Z.to_nat (fst (randbelow G (Z.of_nat (List.length item_ids)) g))) item_ids "";
         json := NoBody; name := "view_item" |}
  | add_to_cart =>
      {| verb := "POST"; path := "/cart";
         json := CartData (nth (Z.to_nat (fst (randbelow G (Z.of_nat (List.length item_ids)) g))) item_ids "") 1;
         name := "add_to_cart" |}
  | view_cart =>
      {| verb := "GET"; path := "/basket.html"; json := NoBody; name := "view_cart" |}
  | checkout =>
      {| verb := "GET"; path := "/customer-orders.html"; json := NoBody; name := "checkout" |}
  end.

Definition rng_after (e : event) (g : gen_state G) : gen_state G :=
  match e with
  | Start _ =>
      match file with
      | Basic => g
      | Pattern => snd (randbelow G (9999 - 1000 + 1) g)
      end
  | Cycle _ browse_category => snd (randbelow G (Z.of_nat (List.length tags)) g)
  | Cycle _ (view_item | add_to_cart) => snd (randbelow G (Z.of_nat (List.length item_ids)) g)
  | Cycle _ _ => g
  end.

(** The requests of an event. *)
Definition event_requests (e : event) (g : gen_state G) : list (nat * request) :=
  match e with
  | Start _ => []
  | Cycle u t => [(u, request_of t g)]
  end.

(** The requests of a schedule, read off the generator alone. *)
Fixpoint trace (schedule : list event) (g : gen_state G) : list (nat * request) :=
  match schedule with
  | [] => []
  | e :: rest => (event_requests e g ++ trace rest (rng_after e g))%list
  end.

Fixpoint rng_after_all (schedule : list event) (g : gen_state G) : gen_state G :=
  match schedule with
  | [] => g
  | e :: rest => rng_after_all rest (rng_after e g)
  end.

(** *** The runner

    The class lists its tasks in [self.tasks], every method as many times
    as its [@task] weight and in the order of the class body; Locust's
    [DefaultTaskSet.get_next_task] picks the task of each cycle with
    [random.choice(self.user.tasks)], on the generator of module [random]
    that the task methods draw from.  [wait_time = constant(2)] draws
    nothing. *)
Definition user_tasks : list task :=
  flat_map (fun t => repeat t (weight t)) tasks.

Definition get_next_task : method world task :=
  fun w =>
    let (i, g) := randbelow G (Z.of_nat (List.length user_tasks)) (rng w) in
    (nth (Z.to_nat i) user_tasks browse_home, set_rng g w).

(** A turn of a user as the runner gives it: the user is spawned and runs
    [on_start], or it picks its next task and runs it.  The order of the
    turns of the users of a process is the runner's. *)
Inductive turn : Type :=
| Spawn (u : nat)
| Next (u : nat).

Definition turn_user (tn : turn) : nat :=
  match tn with Spawn u => u | Next u => u end.

Definition run_turn (tn : turn) (w : world) : world :=
  match tn with
  | Spawn u => run_event (Start u) w
  | Next u => let (t, w') := get_next_task w in run_event (Cycle u t) w'
  end.

Definition run_turns (turns : list turn) (w : world) : world :=
  fold_left (fun w tn => run_turn tn w) turns w.

(** The turns of one user among those of all. *)
Definition turns_of (u : nat) (turns : list turn) : list turn :=
  filter (fun tn => Nat.eqb (turn_user tn) u) turns.

(** Whether a turn draws from the generator: every pick does, [on_start]
    does where it numbers the session. *)
Definition turn_draws (tn : turn) : bool :=
  match tn with
  | Spawn _ => match file with Basic => false | Pattern => true end
  | Next _ => true
  end.

(** The task picked, the request sent and the generator left by a turn,
    read off the generator the turn starts from. *)
Definition picked (g : gen_state G) : task :=
  nth (Z.to_nat (fst (randbelow G (Z.of_nat (List.length user_tasks)) g)))
    user_tasks browse_home.

Definition rng_after_pick (g : gen_state G) : gen_state G :=
  snd (randbelow G (Z.of_nat (List.length user_tasks)) g).

Definition turn_requests (tn : turn) (g : gen_state G) : list (nat * request) :=
  match tn with
  | Spawn _ => []
  | Next u => [(u, request_of (picked g) (rng_after_pick g))]
  end.

Definition rng_after_turn (tn : turn) (g : gen_state G) : gen_state G :=
  match tn with
  | Spawn u => rng_after (Start u) g
  | Next u => rng_after (Cycle u (picked g)) (rng_after_pick g)
  end.

Fixpoint turns_trace (turns : list turn) (g : gen_state G) : list (nat * request) :=
  match turns with
  | [] => []
  | tn :: rest => (turn_requests tn g ++ turns_trace rest (rng_after_turn tn g))%list
  end.

(** Per-user streams, as a property of the runs: what a user requests
    depends on its own turns only, whatever the other users do in
    between. *)
Definition per_user_streams : Prop :=
  forall (g : gen_state G) (s1 s2 : list turn) (u : nat),
    turns_of u s1 = turns_of u s2 ->
    requests_of u (run_turns s1 (fresh g)) = requests_of u (run_turns s2 (fresh g)).

End Runtime.

Arguments rng {G} w.
Arguments sent {G} w.
Arguments users {G} w.

End SockShopUser.

(** A generator that hands out [0, 1, 2, ...] reduced below the bound. *)
Definition counting : generator :=
  {| gen_state := Z; randbelow := fun n s => (s mod n, s + 1) |}.

(** A service that accepts everything, and one that is down. *)
Definition always_ok : SockShopUser.server := fun _ => 200.
Definition always_down : SockShopUser.server := fun _ => 503.

(** Two cycles of user 0, alone and with a cycle of a second user in
    between. *)
Definition alone : list SockShopUser.turn :=
  [ SockShopUser.Next 0; SockShopUser.Next 0 ].
Definition together : list SockShopUser.turn :=
  [ SockShopUser.Next 0; SockShopUser.Next 1; SockShopUser.Next 0 ].

Local Close Scope string_scope.

(** ** Schedules no constructor builds *)

Definition overlapping_spikes : SpikeLoad.self :=
  {| SpikeLoad.spikes := [ (60, 30, 15); (70, 30, 50) ];
     SpikeLoad.base_users := 10;
     SpikeLoad.base_spawn_rate := 2;
     SpikeLoad.test_duration := 600 |}.

Definition unordered_steps : StepLoad.self :=
  {| StepLoad.steps := [ (120, 200, 20); (0, 100, 10) ];
     StepLoad.test_duration := 600 |}.

Definition zero_rate_steps : StepLoad.self :=
  {| StepLoad.steps := [ (0, 100, 0) ];
     StepLoad.test_duration := 600 |}.

(** ** Reading the requests of a run *)

Definition is_cycle (e : SockShopUser.event) : bool :=
  match e with SockShopUser.Cycle _ _ => true | SockShopUser.Start _ => false end.

Local Open Scope string_scope.

Definition get (p n : string) : request :=
  {| verb := "GET"; path := p; json := NoBody; name := n |}.

Definition post_cart (item_id : string) : request :=
  {| verb := "POST"; path := "/cart"; json := CartData item_id 1; name := "add_to_cart" |}.

(** The seven requests a user can make, with a tag of [tags] or an item
    of [item_ids] where one is chosen. *)
Definition catalogued (r : request) : Prop :=
  r = get "/" "browse_home"
  \/ r = get "/catalogue" "browse_catalogue"
  \/ (exists tag, In tag tags /\ r = get ("/category.html?tags=" ++ tag) "browse_category")
  \/ (exists item_id, In item_id item_ids /\ r = get ("/detail.html?id=" ++ item_id) "view_item")
  \/ (exists item_id, In item_id item_ids /\ r = post_cart item_id)
  \/ r = get "/basket.html" "view_cart"
  \/ r = get "/customer-orders.html" "checkout".

Local Close Scope string_scope.

(** User [u] has posted [item_id] to the cart and the service has
    answered 200. *)
Definition accepted (srv : SockShopUser.server) (history : list (nat * request))
  (u : nat) (item_id : string) : Prop :=
  exists before later,
    history = (before ++ (u, post_cart item_id) :: later)%list
    /\ srv (before ++ [(u, post_cart item_id)])%list = 200.

(** What the attributes of the users say about the cart. *)
Definition cart_consistent {G : generator} (srv : SockShopUser.server)
  (w : SockShopUser.world G) : Prop :=
  forall u a,
    SockShopUser.users w u = Some a ->
    (has_items_in_cart a = true <-> cart_items a <> [])
    /\ (forall item_id, In item_id (cart_items a) ->
          accepted srv (SockShopUser.sent w) u item_id).

(** The generator keeps its draws below the bound, as [random] does. *)
Definition in_range (G : generator) : Prop :=
  forall n g, 0 < n -> 0 <= fst (randbelow G n g) < n.

(** ** [scripts/run_load_test.py]

    What [parser.parse_args()] makes of the command line, the interpreter's
    path, the file system and [subprocess.run] are the script's
    surroundings and are parameters.  What the script prints is left
    out. *)

Module RunLoadTest.

Local Open Scope string_scope.

(** The [choices] of [--pattern]. *)
Inductive load_pattern : Type := constant | step | spike | ramp | basic.

Definition pattern_name (p : load_pattern) : string :=
  match p with
  | constant => "constant"
  | step => "step"
  | spike => "spike"
  | ramp => "ramp"
  | basic => "basic"
  end.

Record args : Type := {
  pattern : load_pattern;
  users : Z;
  spawn_rate : Z;
  duration : Z;
  host : string;
  web : bool;
  csv : option string;
  check_deps : bool
}.

(** [str(n)] *)
Definition str (n : Z) : string := NilZero.string_of_int (Z.to_int n).

(** The truth value of [args.csv]: [None] and the empty string are false. *)
Definition truthy (s : option string) : bool :=
  match s with
  | None => false
  | Some "" => false
  | Some _ => true
  end.

(** How [parser.parse_args()] ends: with the options, or with the
    [SystemExit] of [argparse], whose status is 0 after [--help] and 2
    after a command line the parser rejects. *)
Inductive parse_result : Type :=
| Namespace (a : args)
| SystemExit (status : Z).

(** How [subprocess.run(cmd, check=True)] can end. *)
Inductive proc_result : Type :=
| Completed (returncode : Z)
| FileNotFoundError
| OtherError.

(** What [run_command] gives back, or that an exception left it. *)
Inductive run_result : Type :=
| Done (success : bool)
| Propagated.

Section Surroundings.

Variable sys_executable : string.
(** [Path(p).exists()] *)
Variable path_exists : string -> bool.
(** The end of the last command of a series of launches. *)
Variable subprocess_run : list (list string) -> proc_result.

Definition run_command (cmd : list string) : method (list (list string)) run_result :=
  fun launched =>
    let launched := (launched ++ [cmd])%list in
    (match subprocess_run launched with
     | Completed returncode => if (returncode =? 0)%Z then Done true else Done false
     | FileNotFoundError => Done false
     | OtherError => Propagated
     end, launched).

Definition locustfile_path (p : load_pattern) : string :=
  match p with
  | basic => "src/locustfile.py"
  | _ => "src/locustfile_" ++ pattern_name p ++ ".py"
  end.

(** The list [cmd] as [main] extends it, statement by statement. *)
Definition command (a : args) : list string :=
  let cmd :=
    match pattern a with
    | basic =>
        ([ sys_executable; "-m"; "locust"; "-f"; "src/locustfile.py" ]
         ++ [ "--users"; str (users a); "--spawn-rate"; str (spawn_rate a) ])%list
    | p =>
        ([ sys_executable; "-m"; "locust"; "-f";
           ("src/locustfile_" ++ pattern_name p ++ ".py")%string ]
         ++ [ "--headless" ]
         ++ match p with
            | constant => [ "--users"; "50"; "--spawn-rate"; "5"; "--run-time"; "600s" ]
            | step => [ "--users"; "50"; "--spawn-rate"; "5"; "--run-time"; "600s" ]
            | spike => [ "--users"; "10"; "--spawn-rate"; "2"; "--run-time"; "600s" ]
            | ramp => [ "--users"; "10"; "--spawn-rate"; "2"; "--run-time"; "600s" ]
            | basic => []
            end)%list
    end in
  let cmd :=
    match pattern a, web a with
    | basic, false => (cmd ++ [ "--run-time"; (str (duration a) ++ "s")%string ])%list
    | _, _ => cmd
    end in
  let cmd := (cmd ++ [ "--host"; host a ])%list in
  let cmd :=
    match csv a with
    | Some prefix => if truthy (csv a) then (cmd ++ [ "--csv"; prefix ])%list else cmd
    | None => cmd
    end in
  let cmd := if web a then (cmd ++ [ "--web-host"; "0.0.0.0" ])%list else cmd in
  cmd.

Definition pip_install : list string :=
  [ sys_executable; "-m"; "pip"; "install"; "-r"; "requirements.txt" ].

(** [main], to the exit status of the script: the status of the
    [SystemExit] that leaves [parse_args], 1 for [sys.exit(1)] and for an
    exception nobody catches, 0 otherwise. *)
Definition main (parse_args : parse_result) : method (list (list string)) Z :=
  match parse_args with
  | SystemExit status => ret status
  | Namespace a =>
      if negb (path_exists (locustfile_path (pattern a))) then ret 1
      else
        (deps <- (if check_deps a then run_command pip_install else ret (Done true)) ;;
         match deps with
         | Propagated => ret 1
         | Done _ =>
             success <- run_command (command a) ;;
             match success with
             | Done true => ret 0
             | Done false => ret 1
             | Propagated => ret 1
             end
         end)%method
  end.

End Surroundings.

End RunLoadTest.

(** The arguments of the decorators add up to 107 (a comment in the source
    gives 117). *)
Example weights_total : fold_right Nat.add 0%nat (map weight tasks) = 107%nat.
Proof. reflexivity. Qed.

Example constant_tick_0 :
  returned (ConstantLoad.tick 0) ConstantLoad.__init__ = Some (50, 5).
Proof. reflexivity. Qed.

Example step_tick_119 :
  returned (StepLoad.tick 119) StepLoad.__init__ = Some (100, 10).
Proof. reflexivity. Qed.

Example ramp_tick_300 :
  returned (RampLoad.tick 300) RampLoad.__init__ = Return (Some (150, 10)).
Proof. reflexivity. Qed.

Example ramp_tick_450 :
  returned (RampLoad.tick 450) RampLoad.__init__ = Return (Some (126, 8)).
Proof. vm_compute. reflexivity. Qed.

Example ramp_b64_tick_450 :
  returned (RampLoadBinary64.tick (Binary64.of_int 450)) RampLoad.__init__ = Return (Some (126, 8)).
Proof. vm_compute. reflexivity. Qed.

(** * Properties *)

(** ** The comparisons *)

Arguments ge_int : simpl never.
Arguments lt_int : simpl never.
Arguments le_int : simpl never.
Arguments truediv : simpl never.
Arguments int : simpl never.

Lemma ge_int_true (t : Q) (n : Z) : ge_int t n = true <-> (inject_Z n <= t)%Q.
Proof. unfold ge_int. apply Qle_bool_iff. Qed.

Lemma ge_int_false (t : Q) (n : Z) : ge_int t n = false <-> (t < inject_Z n)%Q.
Proof.
  unfold ge_int. rewrite <- not_true_iff_false, Qle_bool_iff.
  split; [apply Qnot_le_lt | apply Qlt_not_le].
Qed.

Lemma lt_int_true (t : Q) (n : Z) : lt_int t n = true <-> (t < inject_Z n)%Q.
Proof. unfold lt_int. rewrite negb_true_iff. apply ge_int_false. Qed.

Lemma lt_int_false (t : Q) (n : Z) : lt_int t n = false <-> (inject_Z n <= t)%Q.
Proof. unfold lt_int. rewrite negb_false_iff. apply ge_int_true. Qed.

Lemma le_int_true (t : Q) (n : Z) : le_int t n = true <-> (t <= inject_Z n)%Q.
Proof. unfold le_int. apply Qle_bool_iff. Qed.

Lemma le_int_false (t : Q) (n : Z) : le_int t n = false <-> (inject_Z n < t)%Q.
Proof.
  unfold le_int. rewrite <- not_true_iff_false, Qle_bool_iff.
  split; [apply Qnot_le_lt | apply Qlt_not_le].
Qed.

(** Turns the boolean tests of the context and of the goal into
    inequalities of rationals. *)
Ltac tests_to_Q :=
  repeat match goal with
  | H : ge_int _ _ = true |- _ => apply ge_int_true in H
  | H : ge_int _ _ = false |- _ => apply ge_int_false in H
  | H : lt_int _ _ = true |- _ => apply lt_int_true in H
  | H : lt_int _ _ = false |- _ => apply lt_int_false in H
  | H : le_int _ _ = true |- _ => apply le_int_true in H
  | H : le_int _ _ = false |- _ => apply le_int_false in H
  | |- ge_int _ _ = true => apply ge_int_true
  | |- ge_int _ _ = false => apply ge_int_false
  | |- lt_int _ _ = true => apply lt_int_true
  | |- lt_int _ _ = false => apply lt_int_false
  | |- le_int _ _ = true => apply le_int_true
  | |- le_int _ _ = false => apply le_int_false
  end.

Ltac qtest := tests_to_Q; unfold inject_Z in *; cbn in *; lra.

(** ** What each [tick] returns, and that it writes nothing *)

Lemma constant_tick_run (t : Q) (s : ConstantLoad.self) :
  ConstantLoad.tick t s =
  (if lt_int t (ConstantLoad.test_duration s)
   then Some (ConstantLoad.user_count s, ConstantLoad.spawn_rate s)
   else None, s).
Proof.
  unfold ConstantLoad.tick, bind, attr, ret.
  destruct (lt_int t (ConstantLoad.test_duration s)); reflexivity.
Qed.

Lemma step_tick_run (t : Q) (s : StepLoad.self) :
  StepLoad.tick t s =
  (if ge_int t (StepLoad.test_duration s)
   then None
   else Some (StepLoad.scan t (StepLoad.steps s) (50, 5)), s).
Proof.
  unfold StepLoad.tick, bind, attr, ret.
  destruct (ge_int t (StepLoad.test_duration s)); reflexivity.
Qed.

Lemma spike_tick_run (t : Q) (s : SpikeLoad.self) :
  SpikeLoad.tick t s =
  (if ge_int t (SpikeLoad.test_duration s)
   then None
   else match SpikeLoad.scan t (SpikeLoad.spikes s) with
        | Some peak => Some peak
        | None => Some (SpikeLoad.base_users s, SpikeLoad.base_spawn_rate s)
        end, s).
Proof.
  unfold SpikeLoad.tick, bind, attr, ret.
  destruct (ge_int t (SpikeLoad.test_duration s)); [reflexivity|].
  destruct (SpikeLoad.scan t (SpikeLoad.spikes s)); reflexivity.
Qed.

(** ** Rounding to the nearest double *)

Lemma pow2_pos (z : Z) : (0 < Float64.pow2 z)%Q.
Proof. apply Qpower_0_lt. reflexivity. Qed.

Lemma pow2_add (a b : Z) : (Float64.pow2 (a + b) == Float64.pow2 a * Float64.pow2 b)%Q.
Proof. apply Qpower_plus. discriminate. Qed.

Lemma pow2_le (a b : Z) : a <= b -> (Float64.pow2 a <= Float64.pow2 b)%Q.
Proof. intros H. apply Qpower_le_compat_l; [exact H | discriminate]. Qed.

Lemma pow2_lt (a b : Z) : a < b -> (Float64.pow2 a < Float64.pow2 b)%Q.
Proof. intros H. apply Qpower_lt_compat_l; [exact H | reflexivity]. Qed.

Lemma pow2_Z (z : Z) : 0 <= z -> (Float64.pow2 z == inject_Z (2 ^ z))%Q.
Proof. intros H. unfold Float64.pow2. rewrite Zpower_Qpower by exact H. reflexivity. Qed.

Lemma pow2_cancel (z : Z) : (Float64.pow2 (- z) * Float64.pow2 z == 1)%Q.
Proof. rewrite <- pow2_add. replace (- z + z) with 0 by lia. reflexivity. Qed.

Lemma pow2_le_inv (a b : Z) : (Float64.pow2 a < Float64.pow2 (b + 1))%Q -> a <= b.
Proof.
  intros H. destruct (Z.le_gt_cases a b) as [L|G]; [exact L|].
  exfalso. apply (Qlt_irrefl (Float64.pow2 a)). apply Qlt_le_trans with (1 := H).
  apply pow2_le. lia.
Qed.

(** Positive integers between two powers of two, as rationals. *)
Lemma log2_bounds (n : Z) :
  0 < n -> (Float64.pow2 (Z.log2 n) <= inject_Z n)%Q /\ (inject_Z n < Float64.pow2 (Z.log2 n + 1))%Q.
Proof.
  intros H. destruct (Z.log2_spec n H) as [L U].
  pose proof (Z.log2_nonneg n) as Hn.
  split.
  - rewrite pow2_Z by lia. rewrite <- Zle_Qle. exact L.
  - rewrite pow2_Z by lia. rewrite <- Zlt_Qlt. replace (Z.log2 n + 1) with (Z.succ (Z.log2 n)) by lia. exact U.
Qed.

Lemma Qabs_as_div (q : Q) :
  (Qabs q == inject_Z (Z.abs (Qnum q)) / inject_Z (Z.pos (Qden q)))%Q.
Proof.
  destruct q as [n d]. cbn [Qabs Qnum Qden]. rewrite (Qmake_Qdiv (Z.abs n) d). reflexivity.
Qed.

Lemma exponent_spec (q : Q) :
  ~ (q == 0)%Q ->
  (Float64.pow2 (Float64.exponent q) <= Qabs q)%Q /\ (Qabs q < Float64.pow2 (Float64.exponent q + 1))%Q.
Proof.
  intros Hq.
  assert (Hn : 0 < Z.abs (Qnum q)).
  { destruct q as [n d]. unfold Qeq in Hq. cbn in *. lia. }
  destruct (log2_bounds _ Hn) as [Ln Un].
  destruct (log2_bounds (Z.pos (Qden q)) (Pos2Z.is_pos _)) as [Ld Ud].
  set (a := Z.log2 (Z.abs (Qnum q))) in *.
  set (b := Z.log2 (Z.pos (Qden q))) in *.
  assert (Hd : (0 < inject_Z (Z.pos (Qden q)))%Q) by reflexivity.
  unfold Float64.exponent. fold a b.
  destruct (Qle_bool (Float64.pow2 (a - b)) (Qabs q)) eqn:E.
  - apply Qle_bool_iff in E. split; [exact E|].
    rewrite Qabs_as_div. apply Qlt_shift_div_r; [exact Hd|].
    apply Qlt_le_trans with (1 := Un).
    replace (a + 1) with ((a - b + 1) + b) by lia. rewrite pow2_add.
    apply Qmult_le_l; [apply pow2_pos | exact Ld].
  - assert (E' : (Qabs q < Float64.pow2 (a - b))%Q).
    { apply Qnot_le_lt. intros H. apply Qle_bool_iff in H. congruence. }
    replace (a - b - 1 + 1) with (a - b) by lia. split; [|exact E'].
    rewrite Qabs_as_div. apply Qle_shift_div_l; [exact Hd|].
    apply Qle_trans with (2 := Ln).
    replace a with ((a - b - 1) + (b + 1)) at 2 by lia. rewrite pow2_add.
    apply Qmult_le_l; [apply pow2_pos | apply Qlt_le_weak; exact Ud].
Qed.

Lemma exponent_unique (q : Q) (e : Z) :
  (Float64.pow2 e <= Qabs q)%Q -> (Qabs q < Float64.pow2 (e + 1))%Q -> Float64.exponent q = e.
Proof.
  intros L U.
  assert (Hq : ~ (q == 0)%Q).
  { intros E. rewrite E in L. apply (Qlt_irrefl 0). apply Qlt_le_trans with (2 := L). apply pow2_pos. }
  destruct (exponent_spec q Hq) as [L' U'].
  assert (Float64.exponent q <= e) by (apply pow2_le_inv; apply Qle_lt_trans with (1 := L'); exact U).
  assert (e <= Float64.exponent q) by (apply pow2_le_inv; apply Qle_lt_trans with (1 := L); exact U').
  lia.
Qed.

Lemma exponent_monotone (p q : Q) :
  (0 < p)%Q -> (p <= q)%Q -> Float64.exponent p <= Float64.exponent q.
Proof.
  intros Hp Hpq.
  assert (Hp' : ~ (p == 0)%Q) by (intros E; rewrite E in Hp; discriminate).
  assert (Hq' : ~ (q == 0)%Q) by (intros E; rewrite E in Hpq; apply (Qlt_irrefl 0); apply Qlt_le_trans with (1 := Hp); exact Hpq).
  destruct (exponent_spec p Hp') as [Lp _]. destruct (exponent_spec q Hq') as [_ Uq].
  rewrite Qabs_pos in Lp by (apply Qlt_le_weak; exact Hp).
  rewrite Qabs_pos in Uq by (apply Qle_trans with p; [apply Qlt_le_weak; exact Hp | exact Hpq]).
  apply pow2_le_inv. apply Qle_lt_trans with (1 := Lp). apply Qle_lt_trans with (1 := Hpq). exact Uq.
Qed.

Lemma rne_bounds (x : Q) : Qfloor x <= Float64.rne x <= Qfloor x + 1.
Proof.
  unfold Float64.rne. destruct (x - inject_Z (Qfloor x) ?= 1 # 2)%Q; [destruct (Z.even _)| |]; lia.
Qed.

Lemma rne_monotone (x y : Q) : (x <= y)%Q -> Float64.rne x <= Float64.rne y.
Proof.
  intros H. pose proof (Qfloor_resp_le x y H) as Hf.
  pose proof (rne_bounds x) as Bx. pose proof (rne_bounds y) as By.
  destruct (Z.eq_dec (Qfloor x) (Qfloor y)) as [E|NE]; [|lia].
  unfold Float64.rne in *. rewrite <- E in *.
  destruct (Qcompare_spec (x - inject_Z (Qfloor x)) (1 # 2)) as [Ex|Lx|Gx];
    destruct (Qcompare_spec (y - inject_Z (Qfloor x)) (1 # 2)) as [Ey|Ly|Gy];
    try destruct (Z.even (Qfloor x)); try lia; exfalso; lra.
Qed.

Lemma rne_Z (z : Z) : Float64.rne (inject_Z z) = z.
Proof.
  unfold Float64.rne. rewrite Qfloor_Z.
  destruct (Qcompare_spec (inject_Z z - inject_Z z) (1 # 2)) as [E|L|G]; [exfalso; lra | reflexivity | exfalso; lra].
Qed.

Lemma rne_eq (x : Q) (z : Z) : (x == inject_Z z)%Q -> Float64.rne x = z.
Proof.
  intros E. apply Z.le_antisymm.
  - rewrite <- (rne_Z z). apply rne_monotone. rewrite E. apply Qle_refl.
  - rewrite <- (rne_Z z) at 1. apply rne_monotone. rewrite E. apply Qle_refl.
Qed.

Lemma RN_eq (q : Q) :
  (Float64.RN q == inject_Z (Float64.rne (q * Float64.pow2 (- Float64.scale q))) * Float64.pow2 (Float64.scale q))%Q.
Proof. unfold Float64.RN. apply Qred_correct. Qed.

Lemma RN_nonneg (q : Q) : (0 <= q)%Q -> (0 <= Float64.RN q)%Q.
Proof.
  intros H. rewrite RN_eq. apply Qmult_le_0_compat; [|apply Qlt_le_weak, pow2_pos].
  change 0%Q with (inject_Z 0). rewrite <- Zle_Qle. rewrite <- (rne_Z 0).
  apply rne_monotone. apply Qmult_le_0_compat; [exact H | apply Qlt_le_weak, pow2_pos].
Qed.

Lemma RN_zero (q : Q) : (q == 0)%Q -> (Float64.RN q == 0)%Q.
Proof.
  intros E. rewrite RN_eq. rewrite (rne_eq _ 0); [ring|].
  transitivity (0 * Float64.pow2 (- Float64.scale q))%Q; [|ring].
  apply Qmult_comp; [exact E | reflexivity].
Qed.

Lemma scale_monotone (p q : Q) : (0 < p)%Q -> (p <= q)%Q -> Float64.scale p <= Float64.scale q.
Proof. intros Hp H. unfold Float64.scale. pose proof (exponent_monotone p q Hp H). lia. Qed.

(** At the Float64.scale [s], a value below [2^e] rounds to at most [2^e] when [2^e] is on the grid. *)
Lemma round_at_scale_le (q : Q) (s e : Z) :
  s <= e -> (q <= Float64.pow2 e)%Q ->
  (inject_Z (Float64.rne (q * Float64.pow2 (- s))) * Float64.pow2 s <= Float64.pow2 e)%Q.
Proof.
  intros Hs Hq.
  assert (K : (Float64.pow2 e == inject_Z (2 ^ (e - s)) * Float64.pow2 s)%Q).
  { rewrite <- pow2_Z by lia. rewrite <- pow2_add. replace (e - s + s) with e by lia. reflexivity. }
  rewrite K. apply Qmult_le_compat_r; [|apply Qlt_le_weak, pow2_pos].
  rewrite <- Zle_Qle. rewrite <- (rne_Z (2 ^ (e - s))). apply rne_monotone.
  rewrite <- pow2_Z by lia. replace (e - s) with (e + - s) by lia. rewrite pow2_add.
  apply Qmult_le_compat_r; [exact Hq | apply Qlt_le_weak, pow2_pos].
Qed.

Lemma round_at_scale_ge (q : Q) (s e : Z) :
  s <= e -> (Float64.pow2 e <= q)%Q ->
  (Float64.pow2 e <= inject_Z (Float64.rne (q * Float64.pow2 (- s))) * Float64.pow2 s)%Q.
Proof.
  intros Hs Hq.
  assert (K : (Float64.pow2 e == inject_Z (2 ^ (e - s)) * Float64.pow2 s)%Q).
  { rewrite <- pow2_Z by lia. rewrite <- pow2_add. replace (e - s + s) with e by lia. reflexivity. }
  rewrite K. apply Qmult_le_compat_r; [|apply Qlt_le_weak, pow2_pos].
  rewrite <- Zle_Qle. rewrite <- (rne_Z (2 ^ (e - s))) at 1. apply rne_monotone.
  rewrite <- pow2_Z by lia. replace (e - s) with (e + - s) by lia. rewrite pow2_add.
  apply Qmult_le_compat_r; [exact Hq | apply Qlt_le_weak, pow2_pos].
Qed.

(** Rounding to nearest is monotone. *)
Lemma RN_monotone (p q : Q) : (0 <= p)%Q -> (p <= q)%Q -> (Float64.RN p <= Float64.RN q)%Q.
Proof.
  intros Hp Hpq.
  destruct (Qlt_le_dec 0 p) as [Hpos|Hzero].
  2:{ rewrite (RN_zero p) by (apply Qle_antisym; assumption).
      apply RN_nonneg. apply Qle_trans with p; assumption. }
  assert (Hq : (0 < q)%Q) by (apply Qlt_le_trans with p; assumption).
  assert (Hp' : ~ (p == 0)%Q) by (intros E; rewrite E in Hpos; discriminate).
  assert (Hq' : ~ (q == 0)%Q) by (intros E; rewrite E in Hq; discriminate).
  pose proof (scale_monotone p q Hpos Hpq) as Hs.
  rewrite !RN_eq.
  destruct (Z.eq_dec (Float64.scale p) (Float64.scale q)) as [E|NE].
  - rewrite E. apply Qmult_le_compat_r; [|apply Qlt_le_weak, pow2_pos].
    rewrite <- Zle_Qle. apply rne_monotone.
    apply Qmult_le_compat_r; [exact Hpq | apply Qlt_le_weak, pow2_pos].
  - destruct (exponent_spec p Hp') as [_ Up]. destruct (exponent_spec q Hq') as [Lq _].
    rewrite Qabs_pos in Up by (apply Qlt_le_weak; exact Hpos).
    rewrite Qabs_pos in Lq by (apply Qlt_le_weak; exact Hq).
    unfold Float64.scale in *.
    assert (He : Float64.exponent p + 1 <= Float64.exponent q) by lia.
    apply Qle_trans with (Float64.pow2 (Float64.exponent q)).
    + apply round_at_scale_le; [lia|].
      apply Qlt_le_weak. apply Qlt_le_trans with (1 := Up). apply pow2_le. exact He.
    + apply round_at_scale_ge; [lia | exact Lq].
Qed.

(** A value between zero and a double below the overflow threshold
    becomes a finite double. *)
Lemma fl_finite (q bound : Q) :
  (0 <= q)%Q -> (q <= bound)%Q -> (Float64.RN bound < Float64.pow2 1024)%Q ->
  Float64.fl q = Float64.Finite (Float64.RN q).
Proof.
  intros H0 Hb Hr. unfold Float64.fl. cbv zeta.
  destruct (Qle_bool (Float64.pow2 1024) (Qabs (Float64.RN q))) eqn:E; [|reflexivity].
  exfalso. apply Qle_bool_iff in E. rewrite Qabs_pos in E by (apply RN_nonneg; exact H0).
  apply (Qlt_irrefl (Float64.pow2 1024)). apply Qle_lt_trans with (1 := E).
  apply Qle_lt_trans with (2 := Hr). apply RN_monotone; assumption.
Qed.

(** ** What [RampLoad.tick] returns, and that it writes nothing *)

Arguments Float64.truediv : simpl never.
Arguments Float64.int_mul : simpl never.
Arguments Float64.int_add : simpl never.
Arguments Float64.int_sub : simpl never.
Arguments Float64.sub_int : simpl never.
Arguments Float64.int : simpl never.
Arguments Float64.of_int : simpl never.
Arguments Float64.fl : simpl never.
Arguments Float64.RN : simpl never.

Lemma ramp_tick_after (t : Q) (s : RampLoad.self) : after (RampLoad.tick t) s = s.
Proof.
  unfold after, RampLoad.tick, bind, attr, ret.
  destruct (ge_int t (RampLoad.test_duration s)); [reflexivity|].
  destruct (le_int t (RampLoad.ramp_up_duration s)); [reflexivity|].
  destruct (le_int t (RampLoad.ramp_up_duration s + RampLoad.peak_duration s));
    [reflexivity|].
  destruct (le_int t _); reflexivity.
Qed.

Lemma ramp_tick_returned (t : Q) (s : RampLoad.self) :
  returned (RampLoad.tick t) s =
  let up := RampLoad.ramp_up_duration s in
  let peak := RampLoad.peak_duration s in
  let down := RampLoad.ramp_down_duration s in
  let lo := RampLoad.min_users s in
  let hi := RampLoad.max_users s in
  if ge_int t (RampLoad.test_duration s) then Return None
  else if le_int t up then
    (progress <-! Float64.truediv (Float64.Finite t) up ;
     scaled <-! Float64.int_mul (hi - lo) progress ;
     total <-! Float64.int_add lo scaled ;
     current_users <-! Float64.int total ;
     Return (Some (current_users, 10)))%outcome
  else if le_int t (up + peak) then Return (Some (hi, 5))
  else if le_int t (up + peak + down) then
    (elapsed <-! Float64.sub_int (Float64.Finite t) (up + peak) ;
     progress <-! Float64.truediv elapsed down ;
     scaled <-! Float64.int_mul (hi - lo) progress ;
     total <-! Float64.int_sub hi scaled ;
     current_users <-! Float64.int total ;
     Return (Some (current_users, 8)))%outcome
  else Return None.
Proof.
  unfold returned, RampLoad.tick, bind, attr, ret. cbv zeta.
  destruct (ge_int t (RampLoad.test_duration s)); [reflexivity|].
  destruct (le_int t (RampLoad.ramp_up_duration s)); [reflexivity|].
  destruct (le_int t (RampLoad.ramp_up_duration s + RampLoad.peak_duration s));
    [reflexivity|].
  destruct (le_int t _); reflexivity.
Qed.

(** The arithmetic branches return a directive or raise: [None] comes
    from the guards alone. *)
Lemma and_then_not_none {A : Type} (m : outcome A) (k : A -> outcome (option directive)) :
  (forall a, k a <> Return None) -> Float64.and_then m k <> Return None.
Proof. intros H. destruct m as [a|e]; cbn; [apply H | discriminate]. Qed.

(** The constants of the built-in ramp are doubles. *)
Lemma RN_constants :
  (Float64.RN 1 == 1)%Q /\ (Float64.RN 10 == 10)%Q /\ (Float64.RN 140 == 140)%Q
  /\ (Float64.RN 150 == 150)%Q /\ (Float64.RN 180 == 180)%Q
  /\ (Float64.RN 150 < Float64.pow2 1024)%Q.
Proof. repeat split; vm_compute; reflexivity. Qed.

Lemma of_int_constants :
  Float64.of_int 300 = Return (Float64.Finite 300)
  /\ Float64.of_int 140 = Return (Float64.Finite 140)
  /\ Float64.of_int 10 = Return (Float64.Finite 10)
  /\ Float64.of_int 150 = Return (Float64.Finite 150)
  /\ Float64.of_int 180 = Return (Float64.Finite 180)
  /\ Float64.of_int 420 = Return (Float64.Finite 420).
Proof. repeat split; vm_compute; reflexivity. Qed.

Lemma RN_between (q lo hi : Q) :
  (0 <= lo)%Q -> (lo <= q)%Q -> (q <= hi)%Q ->
  (Float64.RN lo <= Float64.RN q)%Q /\ (Float64.RN q <= Float64.RN hi)%Q.
Proof.
  intros H0 Hlo Hhi. split; apply RN_monotone; try assumption.
  apply Qle_trans with lo; assumption.
Qed.

Lemma RN_below (q c : Q) :
  (Float64.RN c == c)%Q -> (0 <= q)%Q -> (q <= c)%Q -> (Float64.RN q <= c)%Q.
Proof.
  intros Hc H0 H. apply Qle_trans with (Float64.RN c).
  - apply RN_monotone; assumption.
  - apply Qle_lteq. right. exact Hc.
Qed.

Lemma RN_above (q c : Q) :
  (Float64.RN c == c)%Q -> (0 <= c)%Q -> (c <= q)%Q -> (c <= Float64.RN q)%Q.
Proof.
  intros Hc H0 H. apply Qle_trans with (Float64.RN c).
  - apply Qle_lteq. right. symmetry. exact Hc.
  - apply RN_monotone; assumption.
Qed.

Lemma fl_small (q : Q) :
  (0 <= q)%Q -> (q <= 600)%Q -> Float64.fl q = Float64.Finite (Float64.RN q).
Proof. intros H0 H. apply (fl_finite q 600 H0 H). vm_compute. reflexivity. Qed.

(** The values of the ramp-up of the built-in ramp stay in their
    ranges: the progress in [[0, 1]], its multiple in [[0, 140]], the
    population in [[10, 150]]. *)
Lemma ramp_up_values (t : Q) :
  (0 <= t)%Q -> (t <= 300)%Q ->
  let progress := Float64.RN (t / 300) in
  let scaled := Float64.RN (140 * progress) in
  let total := Float64.RN (10 + scaled) in
  (0 <= progress)%Q /\ (progress <= 1)%Q /\ (0 <= scaled)%Q /\ (scaled <= 140)%Q
  /\ (10 <= total)%Q /\ (total <= 150)%Q.
Proof.
  intros H0 H1. cbv zeta.
  destruct RN_constants as [R1 [R10 [R140 [R150 _]]]].
  assert (Hq : (0 <= t / 300)%Q /\ (t / 300 <= 1)%Q).
  { unfold Qdiv. change (/ 300)%Q with (1 # 300)%Q. split; lra. }
  destruct Hq as [Hq0 Hq1].
  assert (P0 : (0 <= Float64.RN (t / 300))%Q) by (apply RN_nonneg; exact Hq0).
  assert (P1 : (Float64.RN (t / 300) <= 1)%Q).
  { apply (RN_below _ 1 R1); assumption. }
  assert (S0 : (0 <= Float64.RN (140 * Float64.RN (t / 300)))%Q) by (apply RN_nonneg; lra).
  assert (S1 : (Float64.RN (140 * Float64.RN (t / 300)) <= 140)%Q).
  { apply (RN_below _ 140 R140); lra. }
  repeat split; try assumption.
  - apply (RN_above _ 10 R10); lra.
  - apply (RN_below _ 150 R150); lra.
Qed.

Lemma ramp_down_values (t : Q) :
  (420 <= t)%Q -> (t <= 600)%Q ->
  let elapsed := Float64.RN (t - 420) in
  let progress := Float64.RN (elapsed / 180) in
  let scaled := Float64.RN (140 * progress) in
  let total := Float64.RN (150 - scaled) in
  (0 <= elapsed)%Q /\ (elapsed <= 180)%Q /\ (0 <= progress)%Q /\ (progress <= 1)%Q
  /\ (0 <= scaled)%Q /\ (scaled <= 140)%Q /\ (10 <= total)%Q /\ (total <= 150)%Q.
Proof.
  intros H0 H1. cbv zeta.
  destruct RN_constants as [R1 [R10 [R140 [R150 [R180 _]]]]].
  assert (E0 : (0 <= Float64.RN (t - 420))%Q) by (apply RN_nonneg; lra).
  assert (E1 : (Float64.RN (t - 420) <= 180)%Q).
  { apply (RN_below _ 180 R180); lra. }
  assert (Hq : (0 <= Float64.RN (t - 420) / 180)%Q /\ (Float64.RN (t - 420) / 180 <= 1)%Q).
  { unfold Qdiv. change (/ 180)%Q with (1 # 180)%Q. split; lra. }
  destruct Hq as [Hq0 Hq1].
  assert (P0 : (0 <= Float64.RN (Float64.RN (t - 420) / 180))%Q) by (apply RN_nonneg; exact Hq0).
  assert (P1 : (Float64.RN (Float64.RN (t - 420) / 180) <= 1)%Q).
  { apply (RN_below _ 1 R1); assumption. }
  assert (S0 : (0 <= Float64.RN (140 * Float64.RN (Float64.RN (t - 420) / 180)))%Q)
    by (apply RN_nonneg; lra).
  assert (S1 : (Float64.RN (140 * Float64.RN (Float64.RN (t - 420) / 180)) <= 140)%Q).
  { apply (RN_below _ 140 R140); lra. }
  repeat split; try assumption.
  - apply (RN_above _ 10 R10); lra.
  - apply (RN_below _ 150 R150); lra.
Qed.

Ltac builtin_ramp :=
  rewrite ramp_tick_returned; unfold RampLoad.__init__; cbv zeta;
  cbn [RampLoad.test_duration RampLoad.ramp_up_duration RampLoad.peak_duration
       RampLoad.ramp_down_duration RampLoad.min_users RampLoad.max_users];
  change (150 - 10) with 140; change (300 + 120 + 180) with 600;
  change (300 + 120) with 420.

(** The built-in ramp, phase by phase. *)
Lemma ramp_tick_up (t : Q) :
  (0 <= t)%Q -> (t <= 300)%Q ->
  returned (RampLoad.tick t) RampLoad.__init__ = Return (Some (ramp_up_count t, 10)).
Proof.
  intros H0 H. builtin_ramp.
  assert (G : ge_int t 600 = false) by qtest.
  assert (U : le_int t 300 = true) by qtest.
  rewrite G, U.
  destruct of_int_constants as [I300 [I140 [I10 _]]].
  destruct (ramp_up_values t H0 H) as [P0 [P1 [S0 [S1 [T0 T1]]]]].
  unfold Float64.truediv, Float64.int_mul, Float64.int_add.
  rewrite I300, I140, I10. cbn [Float64.and_then].
  change (Qeq_bool 300 0) with false. cbn iota. unfold Float64.div.
  rewrite fl_small.
  2:{ unfold Qdiv. change (/ 300)%Q with (1 # 300)%Q. lra. }
  2:{ unfold Qdiv. change (/ 300)%Q with (1 # 300)%Q. lra. }
  cbn [Float64.and_then Float64.mul]. rewrite fl_small by lra.
  cbn [Float64.and_then Float64.add]. rewrite fl_small by lra.
  unfold Float64.int, ramp_up_count. cbn [Float64.and_then]. reflexivity.
Qed.

Lemma ramp_tick_peak (t : Q) :
  (300 < t)%Q -> (t <= 420)%Q ->
  returned (RampLoad.tick t) RampLoad.__init__ = Return (Some (150, 5)).
Proof.
  intros H1 H2. builtin_ramp.
  assert (G : ge_int t 600 = false) by qtest.
  assert (U : le_int t 300 = false) by qtest.
  assert (P : le_int t 420 = true) by qtest.
  rewrite G, U, P. reflexivity.
Qed.

Lemma ramp_tick_down (t : Q) :
  (420 < t)%Q -> (t < 600)%Q ->
  returned (RampLoad.tick t) RampLoad.__init__ = Return (Some (ramp_down_count t, 8)).
Proof.
  intros H1 H2. builtin_ramp.
  assert (G : ge_int t 600 = false) by qtest.
  assert (U : le_int t 300 = false) by qtest.
  assert (P : le_int t 420 = false) by qtest.
  assert (D : le_int t 600 = true) by qtest.
  rewrite G, U, P, D.
  destruct of_int_constants as [_ [I140 [_ [I150 [I180 I420]]]]].
  assert (L : (420 <= t)%Q) by lra. assert (R : (t <= 600)%Q) by lra.
  destruct (ramp_down_values t L R) as [E0 [E1 [P0 [P1 [S0 [S1 [T0 T1]]]]]]].
  unfold Float64.sub_int, Float64.truediv, Float64.int_mul, Float64.int_sub.
  rewrite I420, I180, I140, I150. cbn [Float64.and_then Float64.sub Float64.opp Float64.add].
  change (Float64.fl (t + - (420))) with (Float64.fl (t - 420)).
  rewrite (fl_small (t - 420)) by lra.
  cbn [Float64.and_then]. change (Qeq_bool 180 0) with false. cbn iota. unfold Float64.div.
  rewrite fl_small.
  2:{ unfold Qdiv. change (/ 180)%Q with (1 # 180)%Q. lra. }
  2:{ unfold Qdiv. change (/ 180)%Q with (1 # 180)%Q. lra. }
  cbn [Float64.and_then Float64.mul]. rewrite fl_small by lra.
  cbn [Float64.and_then Float64.sub Float64.opp Float64.add].
  match goal with |- context [Float64.fl (150 + - ?x)] =>
    change (Float64.fl (150 + - x)) with (Float64.fl (150 - x)) end.
  rewrite fl_small by lra.
  unfold Float64.int, ramp_down_count. cbn [Float64.and_then]. reflexivity.
Qed.

Lemma ramp_tick_end (t : Q) :
  (600 <= t)%Q ->
  returned (RampLoad.tick t) RampLoad.__init__ = Return None.
Proof.
  intros H. builtin_ramp.
  assert (G : ge_int t 600 = true) by qtest.
  rewrite G. reflexivity.
Qed.

(** [None] comes from one of the two places that return it. *)
Lemma ramp_tick_none_guards (s : RampLoad.self) (t : Q) :
  returned (RampLoad.tick t) s = Return None ->
  ge_int t (RampLoad.test_duration s) = true
  \/ (le_int t (RampLoad.ramp_up_duration s) = false
      /\ le_int t (RampLoad.ramp_up_duration s + RampLoad.peak_duration s) = false
      /\ le_int t (RampLoad.ramp_up_duration s + RampLoad.peak_duration s
                   + RampLoad.ramp_down_duration s) = false).
Proof.
  rewrite ramp_tick_returned. cbv zeta.
  destruct (ge_int t (RampLoad.test_duration s)); [left; reflexivity|].
  destruct (le_int t (RampLoad.ramp_up_duration s)).
  { intros E. exfalso. revert E.
    repeat (apply and_then_not_none; intro). discriminate. }
  destruct (le_int t (RampLoad.ramp_up_duration s + RampLoad.peak_duration s));
    [discriminate|].
  destruct (le_int t _).
  { intros E. exfalso. revert E.
    repeat (apply and_then_not_none; intro). discriminate. }
  intros _. right. repeat split.
Qed.

(** ** Step: the most recently reached phase *)

Lemma last_cons_default {A : Type} (a d : A) (l : list A) :
  last (a :: l) d = last l a.
Proof.
  revert a d. induction l as [|b l IH]; intros a d; [reflexivity|].
  change (last (a :: b :: l) d) with (last (b :: l) d).
  rewrite (IH b d). symmetry. apply IH.
Qed.

Lemma filter_reached_nil (t : Q) (l : list StepLoad.step) :
  (forall st, In st l -> reached t st = false) -> filter (reached t) l = [].
Proof.
  induction l as [|st l IH]; intros H; [reflexivity|].
  simpl. rewrite (H st (or_introl eq_refl)). apply IH.
  intros st' Hin. apply H. right. exact Hin.
Qed.

(** On offsets in non-decreasing order the loop of [StepLoad.tick], which
    stops at the first phase not yet reached, finds the last phase reached
    in the whole list. *)
Lemma scan_last_reached (t : Q) (l : list StepLoad.step) (current : directive) :
  StronglySorted (fun a b => step_start a <= step_start b) l ->
  StepLoad.scan t l current = last_reached t l current.
Proof.
  unfold last_reached. revert current.
  induction l as [|[[start users] rate] l IH]; intros current Hs; [reflexivity|].
  inversion Hs as [|? ? Hs' Hall]; subst.
  cbn [StepLoad.scan filter].
  change (reached t (start, users, rate)) with (ge_int t start).
  destruct (ge_int t start) eqn:E.
  - rewrite IH by assumption. cbn [map]. rewrite last_cons_default. reflexivity.
  - rewrite filter_reached_nil; [reflexivity|].
    intros st Hin. unfold reached. tests_to_Q.
    rewrite Forall_forall in Hall. specialize (Hall st Hin). cbn in Hall.
    apply Qlt_le_trans with (inject_Z start); [exact E|].
    rewrite <- Zle_Qle. exact Hall.
Qed.

Lemma strictly_increasing_sorted (l : list StepLoad.step) :
  strictly_increasing (map step_start l) = true ->
  StronglySorted (fun a b => step_start a <= step_start b) l.
Proof.
  intros H. apply Sorted_StronglySorted.
  { intros a b c Hab Hbc. lia. }
  induction l as [|a l IH]; [constructor|].
  constructor.
  - apply IH. cbn [map strictly_increasing] in H.
    destruct l as [|b l]; [reflexivity|].
    cbn [map] in H. apply andb_true_iff in H. apply H.
  - destruct l as [|b l]; constructor.
    cbn [map strictly_increasing] in H. apply andb_true_iff in H.
    destruct H as [H _]. apply Z.ltb_lt in H. lia.
Qed.

Lemma last_reached_default (t : Q) (l : list StepLoad.step) (d : directive) :
  (forall st, In st l -> reached t st = false) -> last_reached t l d = d.
Proof. intros H. unfold last_reached. rewrite filter_reached_nil by exact H. reflexivity. Qed.

Lemma last_in {A : Type} (l : list A) (d : A) : l <> [] -> In (last l d) l.
Proof.
  induction l as [|a l IH]; intros H; [contradiction|].
  destruct l as [|b l]; [left; reflexivity|].
  right. apply IH. discriminate.
Qed.

Lemma last_reached_phase (t : Q) (l : list StepLoad.step) (d : directive) (st : StepLoad.step) :
  In st l -> reached t st = true ->
  exists st', In st' l /\ reached t st' = true /\ last_reached t l d = step_directive st'.
Proof.
  intros Hin Hr. unfold last_reached.
  assert (Hne : map step_directive (filter (reached t) l) <> []).
  { intros E. apply map_eq_nil in E.
    assert (Hf : In st (filter (reached t) l)) by (apply filter_In; split; assumption).
    rewrite E in Hf. contradiction. }
  apply (last_in _ d) in Hne. apply in_map_iff in Hne.
  destruct Hne as [st' [E Hf]]. apply filter_In in Hf.
  exists st'. repeat split; try apply Hf. symmetry. exact E.
Qed.

(** C2: for [0 <= t < test_duration], [StepLoad.tick] returns the
    directive of the last phase of the ordered step list whose start is at
    most [t]; the default [(50, 5)] is returned when no phase is reached
    yet, and once the first phase is reached the directive is that of a
    reached phase; from [test_duration] on it returns [None].  On the
    phases [(0,100,10); (120,200,20); (240,100,10)], alone or as the head of
    the built-in list, [tick] gives [(100,10)] at 0 and 119, [(200,20)] at
    120 and 239, and [(100,10)] at 240. *)
Theorem step_tick_last_reached (t : Q) (s : StepLoad.self) :
  strictly_increasing (map step_start (StepLoad.steps s)) = true ->
  ((0 <= t)%Q -> (t < inject_Z (StepLoad.test_duration s))%Q ->
   returned (StepLoad.tick t) s = Some (last_reached t (StepLoad.steps s) (50, 5))
   /\ ((forall st, In st (StepLoad.steps s) -> (t < inject_Z (step_start st))%Q) ->
       returned (StepLoad.tick t) s = Some (50, 5))
   /\ (forall st, In st (StepLoad.steps s) -> (inject_Z (step_start st) <= t)%Q ->
       exists st', In st' (StepLoad.steps s)
                   /\ (inject_Z (step_start st') <= t)%Q
                   /\ returned (StepLoad.tick t) s = Some (step_directive st')))
  /\ ((inject_Z (StepLoad.test_duration s) <= t)%Q -> returned (StepLoad.tick t) s = None)
  /\ (let prefix := {| StepLoad.steps := [ (0, 100, 10); (120, 200, 20); (240, 100, 10) ];
                       StepLoad.test_duration := 600 |} in
      map (fun t => returned (StepLoad.tick t) prefix) [0; 119; 120; 239; 240]%Q
      = map Some [ (100, 10); (100, 10); (200, 20); (200, 20); (100, 10) ])
  /\ map (fun t => returned (StepLoad.tick t) StepLoad.__init__) [0; 119; 120; 239; 240]%Q
     = map Some [ (100, 10); (100, 10); (200, 20); (200, 20); (100, 10) ].
Proof.
  intros Hinc. unfold returned. rewrite step_tick_run. cbn [fst].
  split; [|split; [|split; reflexivity]].
  - intros _ Hlt. apply ge_int_false in Hlt. rewrite Hlt.
    rewrite scan_last_reached by (apply strictly_increasing_sorted; exact Hinc).
    split; [reflexivity|split].
    + intros Hnone. rewrite last_reached_default; [reflexivity|].
      intros st Hin. unfold reached. tests_to_Q. apply Hnone. exact Hin.
    + intros st Hin Hst.
      destruct (last_reached_phase t (StepLoad.steps s) (50, 5) st Hin) as [st' [Hin' [Hr' E]]].
      { unfold reached. tests_to_Q. exact Hst. }
      exists st'. split; [exact Hin'|]. split; [|rewrite E; reflexivity].
      unfold reached in Hr'. tests_to_Q. exact Hr'.
  - intros Hge. apply ge_int_true in Hge. rewrite Hge. reflexivity.
Qed.

Lemma step_tick_last_reached_witness :
  returned (StepLoad.tick 130) StepLoad.__init__ = Some (200, 20)
  /\ returned (StepLoad.tick 600) StepLoad.__init__ = None.
Proof.
  destruct (step_tick_last_reached 130 StepLoad.__init__ eq_refl) as [H _].
  destruct (step_tick_last_reached 600 StepLoad.__init__ eq_refl) as [_ [H' _]].
  split.
  - destruct H as [H _]; [unfold inject_Z; cbn; lra | unfold inject_Z; cbn; lra |].
    rewrite H. reflexivity.
  - apply H'. unfold inject_Z. cbn. lra.
Defined.

(** ** Spike: base load outside the windows, the window's peak inside *)

Lemma in_spike_spec (t : Q) (start duration peak : Z) :
  SpikeLoad.in_spike t (start, duration, peak) = true
  <-> (inject_Z start <= t)%Q /\ (t < inject_Z (start + duration))%Q.
Proof.
  unfold SpikeLoad.in_spike. rewrite andb_true_iff, ge_int_true, lt_int_true.
  reflexivity.
Qed.

Lemma scan_none (t : Q) (l : list SpikeLoad.spike) :
  (forall w, In w l -> SpikeLoad.in_spike t w = false) -> SpikeLoad.scan t l = None.
Proof.
  induction l as [|[[start duration] peak] l IH]; intros H; [reflexivity|].
  cbn [SpikeLoad.scan]. rewrite (H _ (or_introl eq_refl)).
  apply IH. intros w Hin. apply H. right. exact Hin.
Qed.

(** Two windows that hold the same instant overlap. *)
Lemma in_spike_overlap (t : Q) (w1 w2 : SpikeLoad.spike) :
  SpikeLoad.in_spike t w1 = true -> SpikeLoad.in_spike t w2 = true ->
  overlap w1 w2 = true.
Proof.
  destruct w1 as [[s1 d1] p1], w2 as [[s2 d2] p2].
  rewrite !in_spike_spec. intros [L1 U1] [L2 U2].
  unfold overlap. apply andb_true_iff. split; apply Z.ltb_lt; rewrite Zlt_Qlt.
  - apply Qle_lt_trans with t; assumption.
  - apply Qle_lt_trans with t; assumption.
Qed.

(** When the windows are pairwise disjoint the loop, which returns at the
    first window holding [t], returns the peak of the only such window. *)
Lemma scan_in_window (t : Q) (l : list SpikeLoad.spike) (w : SpikeLoad.spike) :
  pairwise_disjoint l = true -> In w l -> SpikeLoad.in_spike t w = true ->
  SpikeLoad.scan t l = Some (snd w, 20).
Proof.
  induction l as [|[[start duration] peak] l IH]; intros Hd Hin Hw; [contradiction|].
  cbn [pairwise_disjoint] in Hd. apply andb_true_iff in Hd. destruct Hd as [Hhead Hrest].
  cbn [SpikeLoad.scan].
  destruct (SpikeLoad.in_spike t (start, duration, peak)) eqn:E.
  - destruct Hin as [<- | Hin]; [reflexivity|].
    rewrite forallb_forall in Hhead. specialize (Hhead w Hin).
    rewrite (in_spike_overlap t _ _ E Hw) in Hhead. discriminate.
  - destruct Hin as [<- | Hin]; [congruence|].
    apply IH; assumption.
Qed.

(** C4: below [test_duration] the built-in [SpikeLoad.tick] returns the
    base directive [(10, 2)] at every instant outside all the windows and
    [(peak_users, 20)] at every instant of a window
    [[spike_time, spike_time + duration)]; from [test_duration] on it
    returns [None]. *)
Theorem spike_tick_isolation (t : Q) :
  ((0 <= t)%Q -> (t < 600)%Q ->
   ((forall w, In w (SpikeLoad.spikes SpikeLoad.__init__) -> SpikeLoad.in_spike t w = false) ->
    returned (SpikeLoad.tick t) SpikeLoad.__init__
    = Some (SpikeLoad.base_users SpikeLoad.__init__, SpikeLoad.base_spawn_rate SpikeLoad.__init__)
    /\ returned (SpikeLoad.tick t) SpikeLoad.__init__ = Some (10, 2))
   /\ (forall spike_time duration peak_users,
         In (spike_time, duration, peak_users) (SpikeLoad.spikes SpikeLoad.__init__) ->
         (inject_Z spike_time <= t)%Q -> (t < inject_Z (spike_time + duration))%Q ->
         returned (SpikeLoad.tick t) SpikeLoad.__init__ = Some (peak_users, 20)))
  /\ ((600 <= t)%Q -> returned (SpikeLoad.tick t) SpikeLoad.__init__ = None).
Proof.
  unfold returned. rewrite spike_tick_run. cbn [fst].
  change (SpikeLoad.test_duration SpikeLoad.__init__) with 600.
  split.
  - intros _ Hlt.
    assert (G : ge_int t 600 = false) by qtest. rewrite G.
    split.
    + intros Hout. rewrite scan_none by exact Hout. split; reflexivity.
    + intros spike_time duration peak_users Hin Hlo Hhi.
      rewrite (scan_in_window t _ (spike_time, duration, peak_users)).
      * reflexivity.
      * reflexivity.
      * exact Hin.
      * apply in_spike_spec. split; assumption.
  - intros Hge. assert (G : ge_int t 600 = true) by qtest. rewrite G. reflexivity.
Qed.

Lemma spike_tick_isolation_witness :
  returned (SpikeLoad.tick 75) SpikeLoad.__init__ = Some (15, 20)
  /\ returned (SpikeLoad.tick 90) SpikeLoad.__init__ = Some (10, 2)
  /\ returned (SpikeLoad.tick 600) SpikeLoad.__init__ = None.
Proof.
  split; [|split].
  - destruct (spike_tick_isolation 75) as [H _].
    destruct H as [_ H]; [lra | lra |].
    apply (H 60 30 15); [left; reflexivity | unfold inject_Z; lra | unfold inject_Z; cbn; lra].
  - destruct (spike_tick_isolation 90) as [H _].
    destruct H as [H _]; [lra | lra |].
    apply H. intros w Hin. cbn in Hin.
    repeat (destruct Hin as [<- | Hin]; [reflexivity|]). contradiction.
  - destruct (spike_tick_isolation 600) as [_ H]. apply H. lra.
Defined.

(** ** Ramp: where the schedule ends *)

Lemma trailing_else_unreachable (t : Q) (s : RampLoad.self) :
  RampLoad.test_duration s
  <= RampLoad.ramp_up_duration s + RampLoad.peak_duration s + RampLoad.ramp_down_duration s ->
  RampLoad.trailing_else t s = false.
Proof.
  intros H. unfold RampLoad.trailing_else.
  destruct (ge_int t (RampLoad.test_duration s)) eqn:G; [reflexivity|].
  assert (D : le_int t (RampLoad.ramp_up_duration s + RampLoad.peak_duration s
                        + RampLoad.ramp_down_duration s) = true).
  { tests_to_Q. apply Qlt_le_weak. apply Qlt_le_trans with (1 := G).
    rewrite <- Zle_Qle. exact H. }
  rewrite D. cbn [negb]. rewrite !andb_false_r. reflexivity.
Qed.

(** C10: the built-in [RampLoad.tick] returns a directive at every
    [0 <= t < test_duration] and returns [None] exactly when
    [t >= test_duration]; the three phase durations add up to
    [test_duration] (300 + 120 + 180 = 600), so the path condition of the
    trailing [else: return None] holds at no [t] (and at none for any ramp
    whose phases cover its [test_duration]). *)
Theorem ramp_tick_terminal_exactly (t : Q) :
  ((0 <= t)%Q -> (t < 600)%Q ->
   exists d, returned (RampLoad.tick t) RampLoad.__init__ = Return (Some d))
  /\ (returned (RampLoad.tick t) RampLoad.__init__ = Return None <-> (600 <= t)%Q)
  /\ RampLoad.ramp_up_duration RampLoad.__init__ + RampLoad.peak_duration RampLoad.__init__
     + RampLoad.ramp_down_duration RampLoad.__init__
     = RampLoad.test_duration RampLoad.__init__
  /\ RampLoad.trailing_else t RampLoad.__init__ = false
  /\ (forall s,
        RampLoad.test_duration s
        <= RampLoad.ramp_up_duration s + RampLoad.peak_duration s
           + RampLoad.ramp_down_duration s ->
        RampLoad.trailing_else t s = false).
Proof.
  assert (Hsome : (0 <= t)%Q -> (t < 600)%Q ->
                  exists d, returned (RampLoad.tick t) RampLoad.__init__ = Return (Some d)).
  { intros H0 Hlt.
    destruct (Qlt_le_dec 300 t) as [H300|H300].
    - destruct (Qlt_le_dec 420 t) as [H420|H420].
      + eexists. apply ramp_tick_down; assumption.
      + eexists. apply ramp_tick_peak; assumption.
    - eexists. apply ramp_tick_up; assumption. }
  split; [exact Hsome|].
  split; [|split; [reflexivity|split]].
  - split.
    + intros E. apply ramp_tick_none_guards in E.
      change (RampLoad.test_duration RampLoad.__init__) with 600 in E.
      change (RampLoad.ramp_up_duration RampLoad.__init__ + RampLoad.peak_duration RampLoad.__init__
              + RampLoad.ramp_down_duration RampLoad.__init__) with 600 in E.
      destruct E as [E | [_ [_ E]]]; qtest.
    + apply ramp_tick_end.
  - apply trailing_else_unreachable. cbn. lia.
  - intros s. apply trailing_else_unreachable.
Qed.

Lemma ramp_tick_terminal_exactly_witness :
  (exists d, returned (RampLoad.tick 599) RampLoad.__init__ = Return (Some d))
  /\ RampLoad.trailing_else 599 RampLoad.__init__ = false.
Proof.
  destruct (ramp_tick_terminal_exactly 599) as [H [_ [_ [H' _]]]].
  split; [apply H; lra | exact H'].
Defined.

(** ** Instants on a phase boundary *)

(** C1, as stated, fails on the ramp: at 300 the directive is still the
    one of the ramp-up (spawn rate 10, not 5) and at 420 still the one of
    the peak (spawn rate 5, not 8). *)
Lemma ramp_boundary_counterexample :
  returned (RampLoad.tick 300) RampLoad.__init__ = Return (Some (150, 10))
  /\ returned (RampLoad.tick 300) RampLoad.__init__ <> Return (Some (150, 5))
  /\ returned (RampLoad.tick 420) RampLoad.__init__ = Return (Some (150, 5))
  /\ returned (RampLoad.tick 420) RampLoad.__init__ <> Return (Some (150, 8)).
Proof.
  assert (E300 : returned (RampLoad.tick 300) RampLoad.__init__ = Return (Some (150, 10)))
    by (vm_compute; reflexivity).
  assert (E420 : returned (RampLoad.tick 420) RampLoad.__init__ = Return (Some (150, 5)))
    by (vm_compute; reflexivity).
  rewrite E300, E420. repeat split; discriminate.
Qed.

(** C1, amended: Constant, Step and Spike resolve an instant on a phase
    boundary to the phase that starts there (every phase of Step at its
    [start_time], every window of Spike at its [spike_time], the base load
    again at [spike_time + duration]), and all four shapes return [None]
    at [test_duration]; the phases of Ramp include their upper bound: at
    300 the ramp-up directive [(150, 10)] is returned and at 420 the peak
    directive [(150, 5)], the next phase holding at every later instant. *)
Theorem boundary_resolution :
  (forall st, In st (StepLoad.steps StepLoad.__init__) ->
     returned (StepLoad.tick (inject_Z (step_start st))) StepLoad.__init__
     = Some (step_directive st))
  /\ (forall spike_time duration peak_users,
        In (spike_time, duration, peak_users) (SpikeLoad.spikes SpikeLoad.__init__) ->
        returned (SpikeLoad.tick (inject_Z spike_time)) SpikeLoad.__init__
        = Some (peak_users, 20)
        /\ returned (SpikeLoad.tick (inject_Z (spike_time + duration))) SpikeLoad.__init__
           = Some (10, 2))
  /\ returned (ConstantLoad.tick 600) ConstantLoad.__init__ = None
  /\ returned (StepLoad.tick 600) StepLoad.__init__ = None
  /\ returned (SpikeLoad.tick 600) SpikeLoad.__init__ = None
  /\ returned (RampLoad.tick 600) RampLoad.__init__ = Return None
  /\ returned (RampLoad.tick 300) RampLoad.__init__ = Return (Some (150, 10))
  /\ returned (RampLoad.tick 420) RampLoad.__init__ = Return (Some (150, 5))
  /\ (forall t, (300 < t)%Q -> (t <= 420)%Q ->
        returned (RampLoad.tick t) RampLoad.__init__ = Return (Some (150, 5)))
  /\ (forall t, (420 < t)%Q -> (t < 600)%Q ->
        exists users, returned (RampLoad.tick t) RampLoad.__init__ = Return (Some (users, 8))).
Proof.
  split.
  { intros st Hin. cbn in Hin.
    repeat (destruct Hin as [<- | Hin]; [reflexivity|]). contradiction. }
  split.
  { intros spike_time duration peak_users Hin. cbn in Hin.
    repeat (destruct Hin as [E | Hin]; [inversion E; subst; split; reflexivity|]).
    contradiction. }
  repeat (split; [reflexivity|]).
  split.
  - apply ramp_tick_peak.
  - intros t H1 H2. eexists. apply ramp_tick_down; assumption.
Qed.

Lemma boundary_resolution_witness :
  returned (StepLoad.tick 120) StepLoad.__init__ = Some (200, 20)
  /\ returned (SpikeLoad.tick 60) SpikeLoad.__init__ = Some (15, 20)
  /\ returned (RampLoad.tick 301) RampLoad.__init__ = Return (Some (150, 5)).
Proof.
  destruct boundary_resolution as [Hstep [Hspike [_ [_ [_ [_ [_ [_ [Hpeak _]]]]]]]]].
  split; [|split].
  - apply (Hstep (120, 200, 20)). cbn. right. left. reflexivity.
  - apply (Hspike 60 30 15). cbn. left. reflexivity.
  - apply Hpeak; lra.
Defined.

(** ** Reading the clock twice *)

Lemma shape_tick_after (t : Q) (sh : shape) : after (shape_tick t) sh = sh.
Proof.
  unfold after, shape_tick. destruct sh as [s|s|s|s].
  - rewrite constant_tick_run. reflexivity.
  - rewrite step_tick_run. reflexivity.
  - rewrite spike_tick_run. reflexivity.
  - pose proof (ramp_tick_after t s) as H. unfold after in H.
    destruct (RampLoad.tick t s) as [r s']. cbn in *. congruence.
Qed.

Lemma ticks_run (ts : list Q) (sh : shape) :
  ticks ts sh = (map (fun t => returned (shape_tick t) sh) ts, sh).
Proof.
  induction ts as [|t ts IH]; [reflexivity|].
  cbn [ticks map]. unfold bind at 1.
  pose proof (shape_tick_after t sh) as Ha. unfold after in Ha.
  unfold returned at 1.
  destruct (shape_tick t sh) as [r sh']. cbn [fst snd] in *. subst sh'.
  unfold bind. rewrite IH. reflexivity.
Qed.

(** C6: whatever the shape and the elapsed time, [tick] leaves the object
    as it found it, so a second call with the same time returns the same
    directive or [None]; any series of calls returns what each call alone
    returns. *)
Theorem shape_tick_idempotent (sh : shape) (t : Q) (ts : list Q) :
  after (shape_tick t) sh = sh
  /\ returned (shape_tick t) (after (shape_tick t) sh) = returned (shape_tick t) sh
  /\ after (ticks ts) sh = sh
  /\ returned (ticks ts) sh = map (fun t' => returned (shape_tick t') sh) ts.
Proof.
  rewrite shape_tick_after. unfold after, returned at 3. rewrite ticks_run.
  repeat split.
Qed.

(** ** Truncation *)

Lemma int_floor (q : Q) : (0 <= q)%Q -> int q = Qfloor q.
Proof.
  destruct q as [n d]. unfold Qle, int, Qfloor. cbn. intros H.
  apply Z.quot_div_nonneg; lia.
Qed.

Lemma int_bounds (q : Q) (a b : Z) :
  0 <= a -> (inject_Z a <= q)%Q -> (q <= inject_Z b)%Q -> a <= int q <= b.
Proof.
  intros Ha Hlo Hhi.
  assert (H0 : (0 <= q)%Q).
  { apply Qle_trans with (inject_Z a); [|exact Hlo]. change (inject_Z 0 <= inject_Z a)%Q. rewrite <- Zle_Qle. exact Ha. }
  rewrite int_floor by exact H0. split.
  - rewrite <- (Qfloor_Z a). apply Qfloor_resp_le. exact Hlo.
  - rewrite <- (Qfloor_Z b). apply Qfloor_resp_le. exact Hhi.
Qed.

Lemma int_monotone (p q : Q) : (0 <= p)%Q -> (p <= q)%Q -> int p <= int q.
Proof.
  intros H0 H. rewrite !int_floor.
  - apply Qfloor_resp_le. exact H.
  - apply Qle_trans with p; assumption.
  - exact H0.
Qed.


Lemma result_eqb_eq (a b : outcome (option directive)) : result_eqb a b = true -> a = b.
Proof.
  destruct a as [[[u r]|]|[]], b as [[[u' r']|]|[]]; cbn; try discriminate; try reflexivity.
  intros H. apply andb_true_iff in H. destruct H as [Hu Hr].
  apply Z.eqb_eq in Hu, Hr. subst. reflexivity.
Qed.

Lemma in_seconds (n : Z) (k : nat) : 0 <= n < Z.of_nat k -> In n (seconds k).
Proof.
  intros H. unfold seconds. apply in_map_iff. exists (Z.to_nat n). split.
  - apply Z2Nat.id. lia.
  - apply in_seq. lia.
Qed.

(** ** Ramp-up: a non-decreasing population *)

Lemma ramp_up_count_monotone (t1 t2 : Q) :
  (0 <= t1)%Q -> (t1 <= t2)%Q -> (t2 <= 300)%Q -> ramp_up_count t1 <= ramp_up_count t2.
Proof.
  intros H0 H12 H2.
  assert (H1 : (t1 <= 300)%Q) by lra.
  assert (H0' : (0 <= t2)%Q) by lra.
  destruct (ramp_up_values t1 H0 H1) as [P0 [P1 [S0 [S1 [T0 T1]]]]].
  assert (P : (Float64.RN (t1 / 300) <= Float64.RN (t2 / 300))%Q).
  { apply RN_monotone; unfold Qdiv; change (/ 300)%Q with (1 # 300)%Q; lra. }
  assert (S : (Float64.RN (140 * Float64.RN (t1 / 300))
               <= Float64.RN (140 * Float64.RN (t2 / 300)))%Q).
  { apply RN_monotone; lra. }
  unfold ramp_up_count. apply int_monotone; [lra|].
  apply RN_monotone; lra.
Qed.

Lemma ramp_up_count_bounds (t : Q) :
  (0 <= t)%Q -> (t <= 300)%Q -> 10 <= ramp_up_count t <= 150.
Proof.
  intros H0 H1. destruct (ramp_up_values t H0 H1) as [_ [_ [_ [_ [T0 T1]]]]].
  unfold ramp_up_count. apply int_bounds; [lia | exact T0 | exact T1].
Qed.

(** At the whole seconds the roundings do not show: the count is the
    floor of the exact population. *)
Lemma ramp_up_count_whole_seconds (n : Z) :
  0 <= n <= 300 -> ramp_up_count (inject_Z n) = ramp_up_users RampLoad.__init__ (inject_Z n).
Proof.
  intros H. apply Z.eqb_eq.
  assert (All : forallb (fun n => ramp_up_count (inject_Z n)
                                  =? ramp_up_users RampLoad.__init__ (inject_Z n))
                  (seconds 301) = true) by (vm_compute; reflexivity).
  rewrite forallb_forall in All. apply All. apply in_seconds. lia.
Qed.

(** C3, as stated, fails between the whole seconds: at the double just
    below 120 the exact population is just below 66 and its floor is 65,
    while the three rounded operations of the source give 66.0 and [tick]
    returns 66 (so does the binary64 arithmetic of the standard
    library). *)
Lemma ramp_up_rounding_counterexample :
  Float64.is_double (8444249301319679 # 70368744177664)
  /\ (0 <= 8444249301319679 # 70368744177664)%Q
  /\ (8444249301319679 # 70368744177664 < 120)%Q
  /\ returned (RampLoad.tick (8444249301319679 # 70368744177664)) RampLoad.__init__
     = Return (Some (66, 10))
  /\ returned (RampLoadBinary64.tick (S754_finite false 8444249301319679 (-46)))
       RampLoad.__init__
     = Return (Some (66, 10))
  /\ ramp_up_users RampLoad.__init__ (8444249301319679 # 70368744177664) = 65.
Proof.
  split; [split; vm_compute; reflexivity|].
  repeat split; vm_compute; first [reflexivity | discriminate].
Qed.

(** C3, amended: on the built-in ramp ([min_users = 10],
    [max_users = 150], [ramp_up_duration = 300]) the user count [tick]
    returns for [t] in [[0, 300]] is
    [min + (max - min) * (t / up_duration)] as the interpreter computes
    it, every operation rounded to the nearest double, truncated toward
    zero; it does not decrease as [t] grows, stays between 10 and 150, is
    10 at [t = 0] and 150 at [t = 300], and at every whole second it is
    the floor of the exact population. *)
Theorem ramp_up_monotone (t1 t2 : Q) :
  (0 <= t1)%Q -> (t1 <= t2)%Q -> (t2 <= 300)%Q ->
  returned (RampLoad.tick t1) RampLoad.__init__ = Return (Some (ramp_up_count t1, 10))
  /\ returned (RampLoad.tick t2) RampLoad.__init__ = Return (Some (ramp_up_count t2, 10))
  /\ ramp_up_count t1 <= ramp_up_count t2
  /\ 10 <= ramp_up_count t1
  /\ ramp_up_count t2 <= 150
  /\ returned (RampLoad.tick 0) RampLoad.__init__ = Return (Some (10, 10))
  /\ returned (RampLoad.tick 300) RampLoad.__init__ = Return (Some (150, 10))
  /\ (forall n : Z, 0 <= n <= 300 ->
        ramp_up_count (inject_Z n) = ramp_up_users RampLoad.__init__ (inject_Z n)).
Proof.
  intros H0 H12 H2.
  assert (H1 : (t1 <= 300)%Q) by lra.
  assert (H0' : (0 <= t2)%Q) by lra.
  split; [apply ramp_tick_up; assumption|].
  split; [apply ramp_tick_up; assumption|].
  split; [apply ramp_up_count_monotone; assumption|].
  split; [apply ramp_up_count_bounds; assumption|].
  split; [apply ramp_up_count_bounds; assumption|].
  split; [vm_compute; reflexivity|].
  split; [vm_compute; reflexivity|].
  exact ramp_up_count_whole_seconds.
Qed.

Lemma ramp_up_monotone_witness :
  returned (RampLoad.tick 100) RampLoad.__init__ = Return (Some (ramp_up_count 100, 10))
  /\ returned (RampLoad.tick 200) RampLoad.__init__ = Return (Some (ramp_up_count 200, 10))
  /\ ramp_up_count 100 <= ramp_up_count 200.
Proof.
  assert (A : (0 <= 100)%Q) by lra.
  assert (B : (100 <= 200)%Q) by lra.
  assert (C : (200 <= 300)%Q) by lra.
  destruct (ramp_up_monotone 100 200 A B C) as [E1 [E2 [Hle _]]].
  exact (conj E1 (conj E2 Hle)).
Defined.

(** ** The ramp in double precision *)

(** X8: at every whole second of the run, from 0 to 600, the directive
    [RampLoad.tick] computes in double precision, every operation rounded
    as the interpreter rounds it, is the one of the exact computation;
    the binary64 numbers of the standard library and the roundings
    written out on the rationals give the same. *)
Lemma ramp_tick_binary64_agrees (n : Z) :
  0 <= n <= 600 ->
  returned (RampLoadBinary64.tick (Binary64.of_int n)) RampLoad.__init__
  = returned (RampLoadExact.tick (inject_Z n)) RampLoad.__init__
  /\ returned (RampLoad.tick (inject_Z n)) RampLoad.__init__
     = returned (RampLoadExact.tick (inject_Z n)) RampLoad.__init__.
Proof.
  intros H.
  assert (All : forallb (fun n =>
                  result_eqb
                    (returned (RampLoadBinary64.tick (Binary64.of_int n)) RampLoad.__init__)
                    (returned (RampLoadExact.tick (inject_Z n)) RampLoad.__init__)
                  && result_eqb
                       (returned (RampLoad.tick (inject_Z n)) RampLoad.__init__)
                       (returned (RampLoadExact.tick (inject_Z n)) RampLoad.__init__))
                  (seconds 601) = true) by (vm_compute; reflexivity).
  rewrite forallb_forall in All. specialize (All n (in_seconds n 601 ltac:(lia))).
  apply andb_true_iff in All. destruct All as [A B].
  split; apply result_eqb_eq; assumption.
Qed.

(** Between the whole seconds too the two ways of rounding agree: at
    every sixteenth of a second of the run, and at two run times where
    the exact computation gives another count. *)
Lemma ramp_tick_roundings_agree (k : Z) :
  0 <= k <= 9600 ->
  returned (RampLoadBinary64.tick (sixteenths k)) RampLoad.__init__
  = returned (RampLoad.tick (k # 16)) RampLoad.__init__.
Proof.
  intros H. apply result_eqb_eq.
  assert (All : forallb (fun k =>
                  result_eqb
                    (returned (RampLoadBinary64.tick (sixteenths k)) RampLoad.__init__)
                    (returned (RampLoad.tick (k # 16)) RampLoad.__init__))
                  (seconds (Z.to_nat 9601)) = true) by (vm_compute; reflexivity).
  rewrite forallb_forall in All. apply All. apply in_seconds. lia.
Qed.

Lemma ramp_tick_roundings_agree_off_grid :
  returned (RampLoadBinary64.tick (S754_finite false 8444249301319679 (-46))) RampLoad.__init__
  = returned (RampLoad.tick (8444249301319679 # 70368744177664)) RampLoad.__init__
  /\ returned (RampLoad.tick (8444249301319679 # 70368744177664)) RampLoad.__init__
     = Return (Some (66, 10))
  /\ returned (RampLoadBinary64.tick (S754_finite false 5255037288410551 (-43))) RampLoad.__init__
     = returned (RampLoad.tick (5255037288410551 # 8796093022208)) RampLoad.__init__
  /\ returned (RampLoad.tick (5255037288410551 # 8796093022208)) RampLoad.__init__
     = Return (Some (12, 8))
  /\ returned (RampLoadExact.tick (5255037288410551 # 8796093022208)) RampLoad.__init__
     = Return (Some (11, 8)).
Proof. repeat split; vm_compute; reflexivity. Qed.

(** ** The invariant of the directives *)

Lemma step_scan_in (t : Q) (l : list StepLoad.step) (current : directive) :
  In (StepLoad.scan t l current) (current :: map step_directive l).
Proof.
  revert current. induction l as [|[[start users] rate] l IH]; intros current.
  - left. reflexivity.
  - cbn [StepLoad.scan map]. destruct (ge_int t start).
    + right. apply IH.
    + left. reflexivity.
Qed.

Lemma spike_scan_some (t : Q) (l : list SpikeLoad.spike) (d : directive) :
  SpikeLoad.scan t l = Some d -> exists w, In w l /\ d = (snd w, 20).
Proof.
  induction l as [|[[start duration] peak] l IH]; cbn [SpikeLoad.scan]; [discriminate|].
  destruct (SpikeLoad.in_spike t (start, duration, peak)).
  - intros E. inversion E. exists (start, duration, peak). split; [left|]; reflexivity.
  - intros E. destruct (IH E) as [w [Hin Hd]]. exists w. split; [right|]; assumption.
Qed.

Lemma shape_tick_ramp (t : Q) (s : RampLoad.self) :
  returned (shape_tick t) (Ramp s) = returned (RampLoad.tick t) s.
Proof. unfold returned, shape_tick. destruct (RampLoad.tick t s). reflexivity. Qed.

Lemma ramp_down_count_bounds (t : Q) :
  (420 < t)%Q -> (t < 600)%Q -> 10 <= ramp_down_count t <= 150.
Proof.
  intros H1 H2.
  assert (L : (420 <= t)%Q) by lra. assert (R : (t <= 600)%Q) by lra.
  destruct (ramp_down_values t L R) as [_ [_ [_ [_ [_ [_ [T0 T1]]]]]]].
  unfold ramp_down_count. apply int_bounds; [lia | exact T0 | exact T1].
Qed.

Lemma ramp_directive_bounds (t : Q) (users rate : Z) :
  (0 <= t)%Q ->
  returned (RampLoad.tick t) RampLoad.__init__ = Return (Some (users, rate)) ->
  10 <= users <= 150 /\ In rate [10; 5; 8].
Proof.
  intros H0 E.
  destruct (Qlt_le_dec 300 t) as [H300|H300].
  - destruct (Qlt_le_dec 420 t) as [H420|H420].
    + destruct (Qlt_le_dec t 600) as [H600|H600].
      * rewrite ramp_tick_down in E by assumption. inversion E; subst. split.
        -- apply ramp_down_count_bounds; assumption.
        -- cbn. tauto.
      * rewrite ramp_tick_end in E by assumption. discriminate.
    + rewrite ramp_tick_peak in E by assumption. inversion E; subst.
      split; [lia | cbn; tauto].
  - rewrite ramp_tick_up in E by assumption. inversion E; subst. split.
    + apply ramp_up_count_bounds; assumption.
    + cbn. tauto.
Qed.

(** C9: every directive a built-in shape returns at an elapsed time
    [t >= 0] has a user count that is not negative and a spawn rate that
    is positive; on the ramp the user count stays within
    [[min_users, max_users]] and the spawn rate is one of the phase
    constants 10, 5 and 8. *)
Theorem directive_invariant (sh : shape) (t : Q) (users rate : Z) :
  In sh shapes -> (0 <= t)%Q ->
  returned (shape_tick t) sh = Return (Some (users, rate)) ->
  0 <= users /\ 0 < rate
  /\ (sh = Ramp RampLoad.__init__ ->
      RampLoad.min_users RampLoad.__init__ <= users <= RampLoad.max_users RampLoad.__init__
      /\ In rate [10; 5; 8]).
Proof.
  intros Hin H0 E. cbn in Hin.
  destruct Hin as [<- | [<- | [<- | [<- | []]]]].
  - unfold returned, shape_tick in E. rewrite constant_tick_run in E. cbn in E.
    destruct (lt_int t 600); inversion E; subst.
    split; [lia|]. split; [lia|]. discriminate.
  - unfold returned, shape_tick in E. rewrite step_tick_run in E. cbn [fst] in E.
    destruct (ge_int t (StepLoad.test_duration StepLoad.__init__)); [discriminate|].
    pose proof (step_scan_in t (StepLoad.steps StepLoad.__init__) (50, 5)) as Hs.
    assert (E' : StepLoad.scan t (StepLoad.steps StepLoad.__init__) (50, 5) = (users, rate))
      by congruence.
    rewrite E' in Hs. cbn in Hs.
    split; [|split; [|discriminate]];
      repeat (destruct Hs as [Hs | Hs]; [inversion Hs; lia|]); contradiction.
  - unfold returned, shape_tick in E. rewrite spike_tick_run in E. cbn [fst] in E.
    destruct (ge_int t (SpikeLoad.test_duration SpikeLoad.__init__)); [discriminate|].
    destruct (SpikeLoad.scan t (SpikeLoad.spikes SpikeLoad.__init__)) as [d|] eqn:Es.
    + apply spike_scan_some in Es. destruct Es as [w [Hw Hd]].
      assert (E' : d = (users, rate)) by congruence.
      rewrite E' in Hd. inversion Hd; subst. cbn in Hw.
      split; [|split; [lia|discriminate]].
      repeat (destruct Hw as [<- | Hw]; [cbn; lia|]). contradiction.
    + inversion E; subst. cbn. split; [lia|]. split; [lia|discriminate].
  - rewrite shape_tick_ramp in E.
    destruct (ramp_directive_bounds t users rate H0 E) as [Hu Hr].
    split; [lia|]. split.
    + cbn in Hr. destruct Hr as [<- | [<- | [<- | []]]]; lia.
    + intros _. cbn. split; [lia | exact Hr].
Qed.

Lemma directive_invariant_witness :
  0 <= 126 /\ 0 < 8
  /\ (Ramp RampLoad.__init__ = Ramp RampLoad.__init__ ->
      RampLoad.min_users RampLoad.__init__ <= 126 <= RampLoad.max_users RampLoad.__init__
      /\ In 8 [10; 5; 8]).
Proof.
  apply (directive_invariant (Ramp RampLoad.__init__) 450 126 8).
  - cbn. tauto.
  - lra.
  - vm_compute. reflexivity.
Defined.

(** Before the start of the run (a clock set back), the ramp-up formula
    gives counts below [min_users], and below zero from [-22] seconds. *)
Remark ramp_tick_negative_time :
  returned (RampLoad.tick (-30)) RampLoad.__init__ = Return (Some (-4, 10)).
Proof. vm_compute. reflexivity. Qed.

(** ** Construction and validation *)

(** C5, as stated, fails: an object whose schedule has overlapping
    windows, offsets out of order or a spawn rate of zero is taken as it
    is, and [tick] returns directives from it. *)
Lemma malformed_schedules_tolerated :
  pairwise_disjoint (SpikeLoad.spikes overlapping_spikes) = false
  /\ returned (SpikeLoad.tick 75) overlapping_spikes = Some (15, 20)
  /\ strictly_increasing (map step_start (StepLoad.steps unordered_steps)) = false
  /\ returned (StepLoad.tick 130) unordered_steps = Some (100, 10)
  /\ returned (StepLoad.tick 50) unordered_steps = Some (50, 5)
  /\ steps_well_formed (StepLoad.steps zero_rate_steps) = false
  /\ returned (StepLoad.tick 10) zero_rate_steps = Some (100, 0).
Proof. repeat split. Qed.

(** C5, amended: the constructors of StepLoad and SpikeLoad take no
    schedule and check nothing; the schedules they install are well formed
    (offsets strictly increasing, windows pairwise disjoint, user counts
    not negative, spawn rates positive), and [tick] checks nothing either:
    on any object, whatever its schedule, it returns a directive at every
    [t < test_duration] and leaves the object unchanged. *)
Theorem schedules_not_validated (t : Q) :
  steps_well_formed (StepLoad.steps StepLoad.__init__) = true
  /\ pairwise_disjoint (SpikeLoad.spikes SpikeLoad.__init__) = true
  /\ 0 <= SpikeLoad.base_users SpikeLoad.__init__
  /\ 0 < SpikeLoad.base_spawn_rate SpikeLoad.__init__
  /\ (forall s : StepLoad.self,
        (t < inject_Z (StepLoad.test_duration s))%Q ->
        (exists d, returned (StepLoad.tick t) s = Some d) /\ after (StepLoad.tick t) s = s)
  /\ (forall s : SpikeLoad.self,
        (t < inject_Z (SpikeLoad.test_duration s))%Q ->
        (exists d, returned (SpikeLoad.tick t) s = Some d) /\ after (SpikeLoad.tick t) s = s).
Proof.
  split; [reflexivity|]. split; [reflexivity|].
  split; [cbn; lia|]. split; [cbn; lia|].
  split.
  - intros s H. apply ge_int_false in H.
    unfold returned, after. rewrite step_tick_run, H. cbn [fst snd].
    split; [eexists|]; reflexivity.
  - intros s H. apply ge_int_false in H.
    unfold returned, after. rewrite spike_tick_run, H. cbn [fst snd].
    split; [|reflexivity].
    destruct (SpikeLoad.scan t (SpikeLoad.spikes s)); eexists; reflexivity.
Qed.

Lemma schedules_not_validated_witness :
  (exists d, returned (StepLoad.tick 130) unordered_steps = Some d)
  /\ (exists d, returned (SpikeLoad.tick 75) overlapping_spikes = Some d).
Proof.
  destruct (schedules_not_validated 130) as [_ [_ [_ [_ [Hstep _]]]]].
  destruct (schedules_not_validated 75) as [_ [_ [_ [_ [_ Hspike]]]]].
  split.
  - apply (Hstep unordered_steps). unfold inject_Z. cbn. lra.
  - apply (Hspike overlapping_spikes). unfold inject_Z. cbn. lra.
Defined.

(** ** Virtual users *)

Module UserFacts.
Import SockShopUser.

Section OneServer.

Variable G : generator.
Variable srv : server.
Variable file : locustfile.

Ltac run_method :=
  unfold after, run_task, on_start, bind, ret, assign, random_choice, random_randint,
    client_get, client_post, client_send, track_item, set_user, set_sent, set_rng;
  cbn [sent rng users fst snd].

Lemma on_start_sent (u : nat) (w : world G) :
  sent (after (on_start G file u) w) = sent w.
Proof.
  destruct file; run_method; [reflexivity|].
  destruct (randbelow G (9999 - 1000 + 1) (rng w)). reflexivity.
Qed.

Lemma on_start_rng (u : nat) (w : world G) :
  rng (after (on_start G file u) w) = rng_after G file (Start u) (rng w).
Proof.
  destruct file; run_method; cbn [rng_after]; [reflexivity|].
  destruct (randbelow G (9999 - 1000 + 1) (rng w)). reflexivity.
Qed.

Lemma run_task_sent (u : nat) (t : task) (w : world G) :
  sent (after (run_task G srv file u t) w) = (sent w ++ [(u, request_of G t (rng w))])%list.
Proof.
  destruct t; run_method; cbn [request_of]; try reflexivity.
  - destruct (randbelow G (Z.of_nat (List.length tags)) (rng w)). reflexivity.
  - destruct (randbelow G (Z.of_nat (List.length item_ids)) (rng w)). reflexivity.
  - destruct (randbelow G (Z.of_nat (List.length item_ids)) (rng w)) as [i g].
    cbn [sent rng users fst snd].
    destruct file; [reflexivity|].
    destruct (srv _ =? 200); [|reflexivity].
    cbn [sent users]. destruct (users w u); reflexivity.
Qed.

Lemma run_task_rng (u : nat) (t : task) (w : world G) :
  rng (after (run_task G srv file u t) w) = rng_after G file (Cycle u t) (rng w).
Proof.
  destruct t; run_method; cbn [rng_after]; try reflexivity.
  - destruct (randbelow G (Z.of_nat (List.length tags)) (rng w)). reflexivity.
  - destruct (randbelow G (Z.of_nat (List.length item_ids)) (rng w)). reflexivity.
  - destruct (randbelow G (Z.of_nat (List.length item_ids)) (rng w)) as [i g].
    cbn [sent rng users fst snd].
    destruct file; [reflexivity|].
    destruct (srv _ =? 200); [|reflexivity].
    cbn [sent users]. destruct (users w u); reflexivity.
Qed.

Lemma run_event_sent (e : event) (w : world G) :
  sent (run_event G srv file e w) = (sent w ++ event_requests G e (rng w))%list.
Proof.
  destruct e as [u|u t]; cbn [run_event event_requests].
  - rewrite on_start_sent, app_nil_r. reflexivity.
  - apply run_task_sent.
Qed.

Lemma run_event_rng (e : event) (w : world G) :
  rng (run_event G srv file e w) = rng_after G file e (rng w).
Proof.
  destruct e as [u|u t]; cbn [run_event]; [apply on_start_rng | apply run_task_rng].
Qed.

(** The requests of a run and the generator it leaves are those read off
    the generator: the replies of the service have no part in them. *)
Lemma run_sent (schedule : list event) (w : world G) :
  sent (run G srv file schedule w) = (sent w ++ trace G file schedule (rng w))%list.
Proof.
  revert w. induction schedule as [|e rest IH]; intros w.
  - cbn. rewrite app_nil_r. reflexivity.
  - change (run G srv file (e :: rest) w) with (run G srv file rest (run_event G srv file e w)).
    rewrite IH, run_event_sent, run_event_rng. cbn [trace].
    rewrite app_assoc. reflexivity.
Qed.

Lemma run_rng (schedule : list event) (w : world G) :
  rng (run G srv file schedule w) = rng_after_all G file schedule (rng w).
Proof.
  revert w. induction schedule as [|e rest IH]; intros w; [reflexivity|].
  change (run G srv file (e :: rest) w) with (run G srv file rest (run_event G srv file e w)).
  rewrite IH, run_event_rng. reflexivity.
Qed.

(** The same for the turns the runner gives: the pick is read off the
    generator, and the task method starts from the state the pick left. *)
Lemma run_turn_sent (tn : turn) (w : world G) :
  sent (run_turn G srv file tn w) = (sent w ++ turn_requests G tn (rng w))%list.
Proof.
  destruct tn as [u|u]; cbn [run_turn turn_requests].
  - rewrite run_event_sent. reflexivity.
  - unfold get_next_task, picked, rng_after_pick.
    destruct (randbelow G (Z.of_nat (List.length user_tasks)) (rng w)) as [i g].
    rewrite run_event_sent. reflexivity.
Qed.

Lemma run_turn_rng (tn : turn) (w : world G) :
  rng (run_turn G srv file tn w) = rng_after_turn G file tn (rng w).
Proof.
  destruct tn as [u|u]; cbn [run_turn rng_after_turn].
  - apply run_event_rng.
  - unfold get_next_task, picked, rng_after_pick.
    destruct (randbelow G (Z.of_nat (List.length user_tasks)) (rng w)) as [i g].
    rewrite run_event_rng. reflexivity.
Qed.

Lemma run_turns_sent (turns : list turn) (w : world G) :
  sent (run_turns G srv file turns w) = (sent w ++ turns_trace G file turns (rng w))%list.
Proof.
  revert w. induction turns as [|tn rest IH]; intros w.
  - cbn. rewrite app_nil_r. reflexivity.
  - change (run_turns G srv file (tn :: rest) w)
      with (run_turns G srv file rest (run_turn G srv file tn w)).
    rewrite IH, run_turn_sent, run_turn_rng. cbn [turns_trace].
    rewrite app_assoc. reflexivity.
Qed.

End OneServer.

Section Traces.

Variable G : generator.
Variable file : locustfile.

Lemma by_user_event (u : nat) (e : event) (g : gen_state G) :
  by_user u (event_requests G e g)
  = if Nat.eqb (event_user e) u then event_requests G e g else [].
Proof.
  destruct e as [v|v t]; cbn; [destruct (Nat.eqb v u); reflexivity|].
  destruct (Nat.eqb v u); reflexivity.
Qed.

Lemma by_user_app (u : nat) (l1 l2 : list (nat * request)) :
  by_user u (l1 ++ l2) = (by_user u l1 ++ by_user u l2)%list.
Proof. apply filter_app. Qed.

Lemma by_user_turn (u : nat) (tn : turn) (g : gen_state G) :
  by_user u (turn_requests G tn g)
  = if Nat.eqb (turn_user tn) u then turn_requests G tn g else [].
Proof.
  destruct tn as [v|v]; cbn; destruct (Nat.eqb v u); reflexivity.
Qed.

Lemma rng_after_turn_no_draw (tn : turn) (g : gen_state G) :
  turn_draws file tn = false -> rng_after_turn G file tn g = g.
Proof.
  destruct tn as [u|u]; cbn; [|discriminate].
  destruct file; [reflexivity|discriminate].
Qed.

(** When the turns of the other users draw nothing, the requests of a
    user are the ones of its own turns run alone. *)
Lemma turns_trace_of_user (u : nat) (turns : list turn) (g : gen_state G) :
  (forall tn, In tn turns -> turn_user tn <> u -> turn_draws file tn = false) ->
  by_user u (turns_trace G file turns g)
  = by_user u (turns_trace G file (turns_of u turns) g).
Proof.
  revert g. induction turns as [|tn rest IH]; intros g H; [reflexivity|].
  assert (Hrest : forall tn', In tn' rest -> turn_user tn' <> u -> turn_draws file tn' = false).
  { intros tn' Hin. apply H. right. exact Hin. }
  cbn [turns_trace turns_of filter]. fold (turns_of u rest).
  rewrite by_user_app, by_user_turn.
  destruct (Nat.eqb (turn_user tn) u) eqn:E.
  - cbn [turns_trace]. rewrite by_user_app, by_user_turn, E.
    f_equal. apply IH. exact Hrest.
  - rewrite rng_after_turn_no_draw.
    + cbn [app]. apply IH. exact Hrest.
    + apply H; [left; reflexivity|]. apply Nat.eqb_neq. exact E.
Qed.

End Traces.

End UserFacts.

Import SockShopUser.

(** C8: a cycle of a virtual user sends exactly one request, and that
    request is fixed by the task of the cycle and the state of the
    generator alone; over any schedule, two services that reply in any two
    ways see the same requests in the same order and leave the generator
    in the same state, so no request depends on the status of an earlier
    reply.  This holds for both texts of the class, the one that records
    accepted cart items included. *)
Theorem requests_ignore_responses
  (G : generator) (file : locustfile) (srv1 srv2 : server)
  (schedule : list event) (w : world G) (u : nat) (t : task) :
  sent (run_event G srv1 file (Cycle u t) w) = (sent w ++ [(u, request_of G t (rng w))])%list
  /\ List.length (sent (run_event G srv1 file (Cycle u t) w)) = S (List.length (sent w))
  /\ sent (run G srv1 file schedule w) = sent (run G srv2 file schedule w)
  /\ requests_of G u (run G srv1 file schedule w) = requests_of G u (run G srv2 file schedule w)
  /\ rng (run G srv1 file schedule w) = rng (run G srv2 file schedule w).
Proof.
  assert (Hsent : sent (run G srv1 file schedule w) = sent (run G srv2 file schedule w))
    by (rewrite !UserFacts.run_sent; reflexivity).
  split; [apply UserFacts.run_event_sent|].
  split.
  { rewrite UserFacts.run_event_sent. cbn [event_requests].
    rewrite length_app. cbn. lia. }
  split; [exact Hsent|].
  split; [unfold requests_of; rewrite Hsent; reflexivity|].
  rewrite !UserFacts.run_rng. reflexivity.
Qed.

(** The branch on [status_code] in the pattern files is there, and only
    the cart it fills can tell the replies apart. *)
Remark cart_follows_responses :
  let session := [ Start 0; Cycle 0 add_to_cart ] in
  option_map cart_items (users (run counting always_ok Pattern session (fresh counting 0)) 0%nat)
  = Some [ "3395a43e-5d8d-4d79-ac8c-0d58e637d5e8"%string ]
  /\ option_map cart_items
       (users (run counting always_down Pattern session (fresh counting 0)) 0%nat)
     = Some [].
Proof. split; vm_compute; reflexivity. Qed.


(** Whatever the generator: the second task of user 0 is picked from the
    state its own first cycle left when it runs alone, and from the state
    the cycle of user 1 left when user 1 comes in between. *)
Remark other_users_advance_the_generator
  (G : generator) (file : locustfile) (srv : server) (g : gen_state G) :
  let g1 := rng_after_turn G file (Next 0) g in
  let g2 := rng_after_turn G file (Next 1) g1 in
  requests_of G 0 (run_turns G srv file alone (fresh G g))
  = map snd (turn_requests G (Next 0) g ++ turn_requests G (Next 0) g1)
  /\ requests_of G 0 (run_turns G srv file together (fresh G g))
     = map snd (turn_requests G (Next 0) g ++ turn_requests G (Next 0) g2).
Proof.
  unfold requests_of. rewrite !UserFacts.run_turns_sent. split; reflexivity.
Qed.



(** * Further properties of the shapes *)

(** ** Step on any list of phases *)

(** X1: on any list of phases, ordered or not, the loop of [StepLoad.tick]
    looks no further than the first phase not yet reached: it returns the
    last phase before it (the value it started from when there is none),
    and the last phase of the list when every phase is reached. *)
Theorem step_scan_stops_at_first_unreached
  (t : Q) (l1 l2 : list StepLoad.step) (st : StepLoad.step) (current : directive) :
  (forall st', In st' l1 -> reached t st' = true) ->
  (reached t st = false ->
   StepLoad.scan t (l1 ++ st :: l2) current = last (map step_directive l1) current)
  /\ StepLoad.scan t l1 current = last (map step_directive l1) current.
Proof.
  revert current. induction l1 as [|[[start users] rate] l1 IH]; intros current Hall.
  - split; [|reflexivity]. intros Hst. destruct st as [[start users] rate].
    cbn [app StepLoad.scan]. unfold reached, step_start in Hst. cbn [fst] in Hst.
    rewrite Hst. reflexivity.
  - assert (Hhead : ge_int t start = true) by (apply (Hall (start, users, rate)); left; reflexivity).
    assert (Hrest : forall st', In st' l1 -> reached t st' = true)
      by (intros st' Hin; apply Hall; right; exact Hin).
    cbn [app StepLoad.scan map]. rewrite Hhead, last_cons_default.
    destruct (IH (users, rate) Hrest) as [IH1 IH2].
    split; [exact IH1 | exact IH2].
Qed.

Lemma step_scan_stops_at_first_unreached_witness :
  StepLoad.scan 130 ([ (120, 200, 20) ] ++ (500, 7, 7) :: [ (0, 100, 10) ]) (50, 5) = (200, 20).
Proof.
  assert (H : forall st', In st' [ (120, 200, 20) ] -> reached 130 st' = true).
  { intros st' [<- | []]. reflexivity. }
  destruct (step_scan_stops_at_first_unreached 130 [ (120, 200, 20) ] [ (0, 100, 10) ]
              (500, 7, 7) (50, 5) H) as [E _].
  apply E. reflexivity.
Defined.

Lemma step_scan_same_tests (t1 t2 : Q) (l : list StepLoad.step) (current : directive) :
  (forall st, In st l -> reached t1 st = reached t2 st) ->
  StepLoad.scan t1 l current = StepLoad.scan t2 l current.
Proof.
  revert current. induction l as [|[[start users] rate] l IH]; intros current H; [reflexivity|].
  cbn [StepLoad.scan].
  pose proof (H (start, users, rate) (or_introl eq_refl)) as E.
  unfold reached, step_start in E. cbn [fst] in E. rewrite E.
  destruct (ge_int t2 start); [|reflexivity].
  apply IH. intros st Hin. apply H. right. exact Hin.
Qed.

(** X2: the directive of a StepLoad object, whatever its phases, changes
    only where a phase starts: two instants before [test_duration] with no
    [start_time] after the first and up to the second get the same
    directive. *)
Theorem step_tick_constant_between_starts (s : StepLoad.self) (t1 t2 : Q) :
  (t1 <= t2)%Q -> (t2 < inject_Z (StepLoad.test_duration s))%Q ->
  (forall st, In st (StepLoad.steps s) ->
     ~ ((t1 < inject_Z (step_start st))%Q /\ (inject_Z (step_start st) <= t2)%Q)) ->
  returned (StepLoad.tick t1) s = returned (StepLoad.tick t2) s.
Proof.
  intros H12 Hd Hnone. unfold returned. rewrite !step_tick_run. cbn [fst].
  assert (G2 : ge_int t2 (StepLoad.test_duration s) = false) by (apply ge_int_false; exact Hd).
  assert (G1 : ge_int t1 (StepLoad.test_duration s) = false).
  { apply ge_int_false. apply Qle_lt_trans with t2; assumption. }
  rewrite G1, G2. f_equal. apply step_scan_same_tests.
  intros st Hin. unfold reached.
  destruct (ge_int t1 (step_start st)) eqn:E1; destruct (ge_int t2 (step_start st)) eqn:E2;
    try reflexivity; tests_to_Q.
  - exfalso. apply (Qlt_irrefl t2).
    apply Qlt_le_trans with (inject_Z (step_start st)); [exact E2|].
    apply Qle_trans with t1; assumption.
  - exfalso. apply (Hnone st Hin). split; assumption.
Qed.

Lemma step_tick_constant_between_starts_witness :
  returned (StepLoad.tick 121) StepLoad.__init__ = returned (StepLoad.tick 239) StepLoad.__init__.
Proof.
  apply step_tick_constant_between_starts.
  - lra.
  - unfold inject_Z. cbn. lra.
  - intros st Hin. cbn in Hin.
    repeat (destruct Hin as [<- | Hin]; [unfold inject_Z; cbn; lra|]). contradiction.
Defined.

(** ** Spike on any list of windows *)

(** X3: on any list of windows, overlapping or not, the loop of
    [SpikeLoad.tick] returns the peak of the first window of the list that
    holds the instant, with spawn rate 20, and nothing when no window
    holds it. *)
Theorem spike_scan_first_window (t : Q) (l : list SpikeLoad.spike) (d : directive) :
  (SpikeLoad.scan t l = Some d
   <-> exists l1 w l2,
         l = (l1 ++ w :: l2)%list
         /\ (forall w', In w' l1 -> SpikeLoad.in_spike t w' = false)
         /\ SpikeLoad.in_spike t w = true
         /\ d = (snd w, 20))
  /\ (SpikeLoad.scan t l = None <-> forall w, In w l -> SpikeLoad.in_spike t w = false).
Proof.
  split.
  - revert d. induction l as [|[[start duration] peak] l IH]; intros d.
    + cbn. split; [discriminate|].
      intros [l1 [w [l2 [E _]]]]. destruct l1; discriminate.
    + cbn [SpikeLoad.scan].
      destruct (SpikeLoad.in_spike t (start, duration, peak)) eqn:Ew.
      * split.
        -- intros E. inversion E; subst.
           exists [], (start, duration, peak), l.
           repeat split; [intros w' []|exact Ew].
        -- intros [l1 [w [l2 [E [Hbefore [Hw Hd]]]]]].
           destruct l1 as [|w1 l1].
           ++ cbn in E. inversion E; subst. reflexivity.
           ++ cbn in E. inversion E; subst.
              rewrite (Hbefore _ (or_introl eq_refl)) in Ew. discriminate.
      * rewrite IH. split.
        -- intros [l1 [w [l2 [E [Hbefore [Hw Hd]]]]]].
           exists ((start, duration, peak) :: l1), w, l2.
           split; [cbn; rewrite E; reflexivity|].
           split; [|split; assumption].
           intros w' [<- | Hin]; [exact Ew | apply Hbefore; exact Hin].
        -- intros [l1 [w [l2 [E [Hbefore [Hw Hd]]]]]].
           destruct l1 as [|w1 l1].
           ++ cbn in E. inversion E; subst. rewrite Hw in Ew. discriminate.
           ++ cbn in E. inversion E; subst.
              exists l1, w, l2. split; [reflexivity|].
              split; [|split; [exact Hw | reflexivity]].
              intros w' Hin. apply Hbefore. right. exact Hin.
  - split; [|apply scan_none].
    induction l as [|[[start duration] peak] l IH]; [intros _ w []|].
    cbn [SpikeLoad.scan].
    destruct (SpikeLoad.in_spike t (start, duration, peak)) eqn:Ew; [discriminate|].
    intros E w [<- | Hin]; [exact Ew | apply IH; assumption].
Qed.

(** ** The ramp beyond its rise *)

(** A positive double is a multiple of the spacing of its binade. *)
Lemma double_on_grid (q : Q) (e : Z) :
  Float64.is_double q -> -1022 <= e ->
  (Float64.pow2 e <= q)%Q -> (q < Float64.pow2 (e + 1))%Q ->
  exists m : Z, (q == inject_Z m * Float64.pow2 (e - 52))%Q.
Proof.
  intros [Hr _] He L U.
  assert (Hpos : (0 <= q)%Q).
  { apply Qle_trans with (2 := L). apply Qlt_le_weak, pow2_pos. }
  assert (Hexp : Float64.exponent q = e).
  { apply exponent_unique; rewrite Qabs_pos by exact Hpos; assumption. }
  exists (Float64.rne (q * Float64.pow2 (- Float64.scale q))).
  rewrite <- Hr at 1. rewrite RN_eq. unfold Float64.scale. rewrite Hexp.
  replace (Z.max (e - 52) (-1074)) with (e - 52) by lia. reflexivity.
Qed.

(** The doubles next to 300 and to 420, [2^-44] away. *)
Lemma double_below_300 (t : Q) :
  Float64.is_double t -> (t < 300)%Q -> (t <= 5277655813324799 # 17592186044416)%Q.
Proof.
  intros Hd H. destruct (Qlt_le_dec t 256) as [S|L]; [lra|].
  destruct (double_on_grid t 8 Hd) as [m Hm].
  - lia.
  - change (Float64.pow2 8) with (2 ^ 8)%Q. apply Qle_trans with (2 := L). vm_compute. discriminate.
  - apply Qlt_le_trans with (1 := H). vm_compute. discriminate.
  - assert (P : (Float64.pow2 (8 - 52) == 1 # 17592186044416)%Q) by (vm_compute; reflexivity).
    rewrite P in Hm.
    assert (B : (inject_Z m < inject_Z 5277655813324800)%Q) by (unfold inject_Z at 2; lra).
    rewrite <- Zlt_Qlt in B.
    assert (B' : (inject_Z m <= inject_Z 5277655813324799)%Q) by (rewrite <- Zle_Qle; lia).
    unfold inject_Z at 2 in B'. lra.
Qed.

Lemma double_above_420 (t : Q) :
  Float64.is_double t -> (420 < t)%Q -> (7388718138654721 # 17592186044416 <= t)%Q.
Proof.
  intros Hd H. destruct (Qlt_le_dec t 512) as [S|L]; [|lra].
  destruct (double_on_grid t 8 Hd) as [m Hm].
  - lia.
  - apply Qle_trans with 420%Q; [vm_compute; discriminate | lra].
  - apply Qlt_le_trans with (1 := S). vm_compute. discriminate.
  - assert (P : (Float64.pow2 (8 - 52) == 1 # 17592186044416)%Q) by (vm_compute; reflexivity).
    rewrite P in Hm.
    assert (B : (inject_Z 7388718138654720 < inject_Z m)%Q) by (unfold inject_Z at 1; lra).
    rewrite <- Zlt_Qlt in B.
    assert (B' : (inject_Z 7388718138654721 <= inject_Z m)%Q) by (rewrite <- Zle_Qle; lia).
    unfold inject_Z at 1 in B'. lra.
Qed.

Lemma ramp_down_count_antitone (t1 t2 : Q) :
  (420 <= t1)%Q -> (t1 <= t2)%Q -> (t2 <= 600)%Q -> ramp_down_count t2 <= ramp_down_count t1.
Proof.
  intros H1 H12 H2.
  assert (H1' : (t1 <= 600)%Q) by lra.
  assert (H2' : (420 <= t2)%Q) by lra.
  destruct (ramp_down_values t1 H1 H1') as [E0 [E1 [P0 [P1 [S0 [S1 [T0 T1]]]]]]].
  destruct (ramp_down_values t2 H2' H2) as [E0' [E1' [P0' [P1' [S0' [S1' [T0' T1']]]]]]].
  assert (E : (Float64.RN (t1 - 420) <= Float64.RN (t2 - 420))%Q) by (apply RN_monotone; lra).
  assert (P : (Float64.RN (Float64.RN (t1 - 420) / 180)
               <= Float64.RN (Float64.RN (t2 - 420) / 180))%Q).
  { apply RN_monotone; unfold Qdiv; change (/ 180)%Q with (1 # 180)%Q; lra. }
  assert (S : (Float64.RN (140 * Float64.RN (Float64.RN (t1 - 420) / 180))
               <= Float64.RN (140 * Float64.RN (Float64.RN (t2 - 420) / 180)))%Q).
  { apply RN_monotone; lra. }
  unfold ramp_down_count. apply int_monotone; [lra|].
  apply RN_monotone; lra.
Qed.

(** The first double after 420 is already below the peak. *)
Lemma ramp_down_count_double (t : Q) :
  Float64.is_double t -> (420 < t)%Q -> (t < 600)%Q -> ramp_down_count t <= 149.
Proof.
  intros Hd H1 H2. pose proof (double_above_420 t Hd H1) as Hnext.
  assert (C : ramp_down_count (7388718138654721 # 17592186044416) = 149)
    by (vm_compute; reflexivity).
  rewrite <- C. apply ramp_down_count_antitone; [vm_compute; discriminate | exact Hnext | lra].
Qed.

(** X4: on the way down, for [420 < t < 600], the built-in ramp returns
    spawn rate 8 and a user count that does not grow with [t] and lies
    between 10 and 150; at a run time that is a double it is at most
    149. *)
Theorem ramp_down_monotone (t1 t2 : Q) :
  (420 < t1)%Q -> (t1 <= t2)%Q -> (t2 < 600)%Q ->
  exists u1 u2,
    returned (RampLoad.tick t1) RampLoad.__init__ = Return (Some (u1, 8))
    /\ returned (RampLoad.tick t2) RampLoad.__init__ = Return (Some (u2, 8))
    /\ u2 <= u1 /\ 10 <= u2 /\ u1 <= 150
    /\ (Float64.is_double t1 -> u1 <= 149).
Proof.
  intros H1 H12 H2.
  assert (H1' : (t1 < 600)%Q) by lra.
  assert (H2' : (420 < t2)%Q) by lra.
  exists (ramp_down_count t1), (ramp_down_count t2).
  split; [apply ramp_tick_down; assumption|].
  split; [apply ramp_tick_down; assumption|].
  split; [apply ramp_down_count_antitone; lra|].
  split; [apply ramp_down_count_bounds; assumption|].
  split; [apply ramp_down_count_bounds; assumption|].
  intros Hd. apply ramp_down_count_double; assumption.
Qed.

Lemma ramp_down_monotone_witness :
  exists u1 u2,
    returned (RampLoad.tick 450) RampLoad.__init__ = Return (Some (u1, 8))
    /\ returned (RampLoad.tick 500) RampLoad.__init__ = Return (Some (u2, 8))
    /\ u2 <= u1 /\ 10 <= u2 /\ u1 <= 150
    /\ (Float64.is_double 450 -> u1 <= 149).
Proof.
  apply (ramp_down_monotone 450 500); lra.
Defined.

(** X5: at a run time [t >= 0] that is a double, the built-in ramp is at
    [max_users] exactly on [[300, 420]]: the rise reaches 150 only at its
    last instant, and the count is below 150 again at the first double
    after 420. *)
Theorem ramp_at_max_exactly_on_plateau (t : Q) (users rate : Z) :
  Float64.is_double t -> (0 <= t)%Q ->
  returned (RampLoad.tick t) RampLoad.__init__ = Return (Some (users, rate)) ->
  (users = RampLoad.max_users RampLoad.__init__ <-> (300 <= t)%Q /\ (t <= 420)%Q).
Proof.
  intros Hd H0 E. change (RampLoad.max_users RampLoad.__init__) with 150.
  destruct (Qlt_le_dec 300 t) as [H300|H300].
  - destruct (Qlt_le_dec 420 t) as [H420|H420].
    + destruct (Qlt_le_dec t 600) as [H600|H600].
      * rewrite ramp_tick_down in E by assumption. inversion E; subst.
        pose proof (ramp_down_count_double t Hd H420 H600) as Hu.
        split; [lia | intros [_ H]; lra].
      * rewrite ramp_tick_end in E by assumption. discriminate.
    + rewrite ramp_tick_peak in E by assumption. inversion E; subst.
      split; [intros _; split; lra | reflexivity].
  - rewrite ramp_tick_up in E by assumption. inversion E; subst.
    destruct (Qlt_le_dec t 300) as [Hlt|Hge].
    + pose proof (double_below_300 t Hd Hlt) as Hprev.
      assert (C : ramp_up_count (5277655813324799 # 17592186044416) = 149)
        by (vm_compute; reflexivity).
      assert (H : ramp_up_count t <= 149).
      { rewrite <- C. apply ramp_up_count_monotone; [exact H0 | exact Hprev |].
        vm_compute. discriminate. }
      split; [lia | intros [H' _]; lra].
    + split; [intros _; split; lra|]. intros _.
      assert (C : ramp_up_count 300 = 150) by (vm_compute; reflexivity).
      apply Z.le_antisymm.
      * apply ramp_up_count_bounds; assumption.
      * rewrite <- C. apply ramp_up_count_monotone; lra.
Qed.

Lemma ramp_at_max_exactly_on_plateau_witness :
  149 = RampLoad.max_users RampLoad.__init__ <-> (300 <= 299)%Q /\ (299 <= 420)%Q.
Proof.
  apply (ramp_at_max_exactly_on_plateau 299 149 10).
  - split; vm_compute; reflexivity.
  - lra.
  - vm_compute. reflexivity.
Defined.

(** ** The ramp on any settings *)

Lemma of_int_raises (n : Z) (e : exception) :
  Float64.of_int n = Raise e -> e = OverflowError.
Proof.
  unfold Float64.of_int. destruct (Float64.fl (inject_Z n)); intros H; inversion H; reflexivity.
Qed.

Lemma of_int_returns (n : Z) (x : Float64.float) :
  Float64.of_int n = Return x -> x = Float64.Finite (Float64.RN (inject_Z n)).
Proof.
  unfold Float64.of_int, Float64.fl. cbv zeta.
  destruct (Qle_bool _ _); intros H; inversion H; reflexivity.
Qed.

Lemma RN_positive_int (n : Z) : 1 <= n -> (1 <= Float64.RN (inject_Z n))%Q.
Proof.
  intros H. apply (RN_above _ 1); [apply RN_constants | discriminate |].
  change 1%Q with (inject_Z 1). rewrite <- Zle_Qle. exact H.
Qed.

(** A division raises [ZeroDivisionError] for the divisor 0 alone. *)
(** A negative [int] becomes a negative double. *)
Lemma RN_negative_int (n : Z) : n <= -1 -> (Float64.RN (inject_Z n) < 0)%Q.
Proof.
  intros H. set (q := inject_Z n).
  assert (Hq : (q <= -1)%Q) by (change (-1)%Q with (inject_Z (-1)); unfold q; rewrite <- Zle_Qle; exact H).
  assert (Hnz : ~ (q == 0)%Q) by (intros E; lra).
  assert (Habs : (Qabs q == - q)%Q) by (apply Qabs_neg; lra).
  destruct (exponent_spec q Hnz) as [Hlo _]. rewrite Habs in Hlo.
  pose proof (pow2_pos (Float64.scale q)) as Hs.
  pose proof (pow2_pos (- Float64.scale q)) as Hs'.
  pose proof (pow2_cancel (Float64.scale q)) as Hc.
  assert (Hscale : (Float64.pow2 (Float64.scale q) <= - q)%Q).
  { unfold Float64.scale.
    destruct (Z.max_spec (Float64.exponent q - 52) (-1074)) as [[_ ->]|[_ ->]].
    - apply Qle_trans with 1%Q; [|lra].
      change 1%Q with (Float64.pow2 0). apply pow2_le. lia.
    - apply Qle_trans with (2 := Hlo). apply pow2_le. lia. }
  assert (Hx : (q * Float64.pow2 (- Float64.scale q) <= inject_Z (-1))%Q).
  { change (inject_Z (-1)) with (-1)%Q.
    assert (M : (Float64.pow2 (Float64.scale q) * Float64.pow2 (- Float64.scale q)
                 <= - q * Float64.pow2 (- Float64.scale q))%Q)
      by (apply Qmult_le_compat_r; [exact Hscale | lra]).
    rewrite (Qmult_comm (Float64.pow2 (Float64.scale q))) in M. rewrite Hc in M. lra. }
  apply rne_monotone in Hx. rewrite rne_Z in Hx.
  rewrite RN_eq. fold q.
  assert (Hr : (inject_Z (Float64.rne (q * Float64.pow2 (- Float64.scale q))) <= -1)%Q)
    by (change (-1)%Q with (inject_Z (-1)); rewrite <- Zle_Qle; exact Hx).
  assert (M : (1 * Float64.pow2 (Float64.scale q)
               <= - inject_Z (Float64.rne (q * Float64.pow2 (- Float64.scale q)))
                  * Float64.pow2 (Float64.scale q))%Q)
    by (apply Qmult_le_compat_r; lra).
  lra.
Qed.

Lemma truediv_zero_division (x : Float64.float) (n : Z) :
  Float64.truediv x n = Raise ZeroDivisionError <-> n = 0.
Proof.
  unfold Float64.truediv.
  destruct (Float64.of_int n) as [d|e] eqn:E; cbn [Float64.and_then].
  - apply of_int_returns in E. subst d.
    destruct (Z.eq_dec n 0) as [->|Hz].
    + split; [reflexivity|]. intros _. vm_compute. reflexivity.
    + assert (P : ~ (Float64.RN (inject_Z n) == 0)%Q).
      { destruct (Z.le_gt_cases 1 n) as [Hp|Hn].
        - pose proof (RN_positive_int n Hp). lra.
        - pose proof (RN_negative_int n ltac:(lia)). lra. }
      destruct (Qeq_bool (Float64.RN (inject_Z n)) 0) eqn:Q0.
      * exfalso. apply Qeq_bool_iff in Q0. contradiction.
      * split; [discriminate | contradiction].
  - pose proof (of_int_raises _ _ E) as He. subst e. split; [discriminate|].
    intros Hz. rewrite Hz in E. vm_compute in E. discriminate.
Qed.

Lemma and_then_raises {A B : Type} (m : outcome A) (k : A -> outcome B) (e : exception) :
  Float64.and_then m k = Raise e -> m = Raise e \/ exists a, m = Return a /\ k a = Raise e.
Proof.
  destruct m as [a|e']; cbn.
  - intros H. right. exists a. split; [reflexivity | exact H].
  - intros H. left. inversion H. reflexivity.
Qed.

(** After the division nothing raises [ZeroDivisionError]: a conversion
    raises [OverflowError], and so does [int] of an infinity, [int] of a
    NaN raises [ValueError]. *)
Lemma rest_not_zero_division (n m : Z) (x : Float64.float) (rate : Z) (minus : bool) :
  (scaled <-! Float64.int_mul n x ;
   total <-! (if minus then Float64.int_sub m scaled else Float64.int_add m scaled) ;
   current_users <-! Float64.int total ;
   Return (Some (current_users, rate)))%outcome
  <> Raise ZeroDivisionError.
Proof.
  intros H. apply and_then_raises in H. destruct H as [H|[scaled [_ H]]].
  { unfold Float64.int_mul in H. apply and_then_raises in H.
    destruct H as [H|[a [_ H]]]; [apply of_int_raises in H|]; discriminate. }
  apply and_then_raises in H. destruct H as [H|[total [_ H]]].
  { destruct minus; unfold Float64.int_sub, Float64.int_add in H;
      apply and_then_raises in H;
      (destruct H as [H|[a [_ H]]]; [apply of_int_raises in H|]; discriminate). }
  apply and_then_raises in H. destruct H as [H|[users [_ H]]]; [|discriminate].
  destruct total; discriminate.
Qed.

(** X6: for a RampLoad object with any attribute values, [tick] raises
    [ZeroDivisionError] exactly when [ramp_up_duration] is 0 and the run
    time is at most 0 and below [test_duration]; a [ramp_down_duration]
    of 0 never does, its branch being empty.  (An [int] attribute too
    large for a double makes the arithmetic raise [OverflowError]
    instead.) *)
Theorem ramp_tick_raises_exactly (s : RampLoad.self) (t : Q) :
  returned (RampLoad.tick t) s = Raise ZeroDivisionError
  <-> RampLoad.ramp_up_duration s = 0
      /\ (t <= 0)%Q /\ (t < inject_Z (RampLoad.test_duration s))%Q.
Proof.
  rewrite ramp_tick_returned. cbv zeta.
  destruct (ge_int t (RampLoad.test_duration s)) eqn:G.
  { split; [discriminate|]. intros [_ [_ H]]. tests_to_Q.
    exfalso. apply (Qlt_irrefl t). apply Qlt_le_trans with (1 := H). exact G. }
  destruct (le_int t (RampLoad.ramp_up_duration s)) eqn:U.
  { pose proof (truediv_zero_division (Float64.Finite t) (RampLoad.ramp_up_duration s)) as Hdiv.
    split.
    - intros H. apply and_then_raises in H. destruct H as [H|[progress [_ H]]].
      + apply Hdiv in H. rewrite H in U. tests_to_Q. repeat split; assumption.
      + exfalso. exact (rest_not_zero_division _ _ _ _ false H).
    - intros [E0 _]. apply Hdiv in E0. rewrite E0. reflexivity. }
  destruct (le_int t (RampLoad.ramp_up_duration s + RampLoad.peak_duration s)) eqn:P.
  { split; [discriminate|]. intros [E0 [H _]]. rewrite E0 in U. tests_to_Q.
    exfalso. apply (Qlt_irrefl t). apply Qle_lt_trans with (1 := H). exact U. }
  destruct (le_int t (RampLoad.ramp_up_duration s + RampLoad.peak_duration s
                      + RampLoad.ramp_down_duration s)) eqn:D.
  - split.
    + intros H. exfalso. apply and_then_raises in H. destruct H as [H|[elapsed [_ H]]].
      { unfold Float64.sub_int in H. apply and_then_raises in H.
        destruct H as [H|[a [_ H]]]; [apply of_int_raises in H|]; discriminate. }
      apply and_then_raises in H. destruct H as [H|[progress [_ H]]].
      * assert (Hdown : 0 < RampLoad.ramp_down_duration s).
        { tests_to_Q. rewrite Zlt_Qlt.
          assert (L : (inject_Z (RampLoad.ramp_up_duration s + RampLoad.peak_duration s)
                       < inject_Z (RampLoad.ramp_up_duration s + RampLoad.peak_duration s
                                   + RampLoad.ramp_down_duration s))%Q)
            by (apply Qlt_le_trans with t; assumption).
          rewrite <- Zlt_Qlt in L. rewrite <- Zlt_Qlt. lia. }
        apply truediv_zero_division in H. lia.
      * exact (rest_not_zero_division _ _ _ _ true H).
    + intros [Eu [H _]]. rewrite Eu in U. tests_to_Q.
      exfalso. apply (Qlt_irrefl t). apply Qle_lt_trans with (1 := H). exact U.
  - split; [discriminate|]. intros [Eu [H _]]. rewrite Eu in U. tests_to_Q.
    exfalso. apply (Qlt_irrefl t). apply Qle_lt_trans with (1 := H). exact U.
Qed.

Lemma ramp_tick_raises_exactly_witness :
  returned (RampLoad.tick 0)
    {| RampLoad.ramp_up_duration := 0; RampLoad.peak_duration := 120;
       RampLoad.ramp_down_duration := 0; RampLoad.min_users := 10;
       RampLoad.max_users := 150; RampLoad.test_duration := 600 |}
  = Raise ZeroDivisionError.
Proof.
  refine (proj2 (ramp_tick_raises_exactly _ 0) _).
  split; [reflexivity|]. split; [lra | cbn; unfold inject_Z; lra].
Defined.

(** X7: for a RampLoad object whose peak and ramp-down are of
    non-negative length, [tick] returns [None] exactly when the run time
    has reached [test_duration] or has passed the end of the three phases:
    when [test_duration] is the larger, the last [else] ends the schedule
    before it. *)
Theorem ramp_tick_none_exactly (s : RampLoad.self) (t : Q) :
  0 <= RampLoad.peak_duration s ->
  0 <= RampLoad.ramp_down_duration s ->
  (returned (RampLoad.tick t) s = Return None
   <-> (inject_Z (RampLoad.test_duration s) <= t)%Q
       \/ (inject_Z (RampLoad.ramp_up_duration s + RampLoad.peak_duration s
                     + RampLoad.ramp_down_duration s) < t)%Q).
Proof.
  intros Hpeak Hdown.
  set (up := RampLoad.ramp_up_duration s) in *.
  set (peak := RampLoad.peak_duration s) in *.
  set (down := RampLoad.ramp_down_duration s) in *.
  assert (L1 : (inject_Z up <= inject_Z (up + peak + down))%Q) by (rewrite <- Zle_Qle; lia).
  assert (L2 : (inject_Z (up + peak) <= inject_Z (up + peak + down))%Q)
    by (rewrite <- Zle_Qle; lia).
  split.
  - intros E. apply ramp_tick_none_guards in E. fold up peak down in E.
    destruct E as [E | [_ [_ E]]]; tests_to_Q; [left | right]; exact E.
  - intros H. rewrite ramp_tick_returned. cbv zeta. fold up peak down.
    destruct (ge_int t (RampLoad.test_duration s)) eqn:G; [reflexivity|].
    destruct H as [H|H]; [tests_to_Q; exfalso; apply (Qlt_irrefl t);
                          apply Qlt_le_trans with (1 := G); exact H|].
    assert (U : le_int t up = false).
    { tests_to_Q. apply Qle_lt_trans with (1 := L1). exact H. }
    assert (P : le_int t (up + peak) = false).
    { tests_to_Q. apply Qle_lt_trans with (1 := L2). exact H. }
    assert (D : le_int t (up + peak + down) = false) by (tests_to_Q; exact H).
    rewrite U, P, D. reflexivity.
Qed.

Lemma ramp_tick_none_exactly_witness :
  returned (RampLoad.tick 700)
    {| RampLoad.ramp_up_duration := 300; RampLoad.peak_duration := 120;
       RampLoad.ramp_down_duration := 180; RampLoad.min_users := 10;
       RampLoad.max_users := 150; RampLoad.test_duration := 900 |}
  = Return None.
Proof.
  apply ramp_tick_none_exactly; cbn; try lia.
  right. unfold inject_Z. lra.
Defined.

Lemma ramp_tick_binary64_agrees_witness :
  returned (RampLoadBinary64.tick (Binary64.of_int 299)) RampLoad.__init__
  = returned (RampLoadExact.tick (inject_Z 299)) RampLoad.__init__
  /\ returned (RampLoad.tick (inject_Z 299)) RampLoad.__init__
     = returned (RampLoadExact.tick (inject_Z 299)) RampLoad.__init__.
Proof. apply (ramp_tick_binary64_agrees 299). lia. Defined.

(** * Further properties of the users *)

Lemma trace_length (G : generator) (file : locustfile) (schedule : list event) (g : gen_state G) :
  List.length (trace G file schedule g) = List.length (filter is_cycle schedule).
Proof.
  revert g. induction schedule as [|e rest IH]; intros g; [reflexivity|].
  cbn [trace filter]. rewrite length_app, IH.
  destruct e; reflexivity.
Qed.

Lemma by_user_trace_length
  (G : generator) (file : locustfile) (u : nat) (schedule : list event) (g : gen_state G) :
  List.length (by_user u (trace G file schedule g))
  = List.length (filter is_cycle (events_of u schedule)).
Proof.
  revert g. induction schedule as [|e rest IH]; intros g; [reflexivity|].
  cbn [trace events_of filter]. fold (events_of u rest).
  rewrite UserFacts.by_user_app, length_app, UserFacts.by_user_event, IH.
  destruct (Nat.eqb (event_user e) u); [|reflexivity].
  destruct e; reflexivity.
Qed.

(** X9: over any schedule and whatever the service replies, a run sends
    one request for each cycle and none for a start, in total and for
    each user. *)
Theorem one_request_per_cycle
  (G : generator) (srv : server) (file : locustfile)
  (schedule : list event) (w : world G) (g : gen_state G) (u : nat) :
  List.length (sent (run G srv file schedule w))
  = (List.length (sent w) + List.length (filter is_cycle schedule))%nat
  /\ List.length (requests_of G u (run G srv file schedule (fresh G g)))
     = List.length (filter is_cycle (events_of u schedule)).
Proof.
  split.
  - rewrite UserFacts.run_sent, length_app, trace_length. reflexivity.
  - unfold requests_of. rewrite length_map, UserFacts.run_sent. cbn [sent rng fresh app].
    apply by_user_trace_length.
Qed.

Lemma choice_in (G : generator) (seq : list string) (g : gen_state G) :
  in_range G -> seq <> [] ->
  In (nth (Z.to_nat (fst (randbelow G (Z.of_nat (List.length seq)) g))) seq ""%string) seq.
Proof.
  intros Hr Hne. apply nth_In.
  assert (Hpos : 0 < Z.of_nat (List.length seq)).
  { destruct seq; [contradiction|]. cbn [List.length]. lia. }
  specialize (Hr _ g Hpos). lia.
Qed.

Lemma request_of_catalogued (G : generator) (t : task) (g : gen_state G) :
  in_range G -> catalogued (request_of G t g).
Proof.
  intros Hr. unfold catalogued. destruct t; cbn [request_of].
  - left. reflexivity.
  - right. left. reflexivity.
  - right. right. left. eexists. split; [|reflexivity].
    apply choice_in; [exact Hr | discriminate].
  - right. right. right. left. eexists. split; [|reflexivity].
    apply choice_in; [exact Hr | discriminate].
  - right. right. right. right. left. eexists. split; [|reflexivity].
    apply choice_in; [exact Hr | discriminate].
  - right. right. right. right. right. left. reflexivity.
  - right. right. right. right. right. right. reflexivity.
Qed.

Lemma trace_catalogued
  (G : generator) (file : locustfile) (schedule : list event) (g : gen_state G)
  (u : nat) (r : request) :
  in_range G -> In (u, r) (trace G file schedule g) -> catalogued r.
Proof.
  intros Hr. revert g. induction schedule as [|e rest IH]; intros g Hin; [contradiction|].
  cbn [trace] in Hin. apply in_app_or in Hin. destruct Hin as [Hin|Hin].
  - destruct e as [v|v t]; cbn in Hin; [contradiction|].
    destruct Hin as [E|[]]. inversion E; subst. apply request_of_catalogued. exact Hr.
  - apply (IH _ Hin).
Qed.

(** X10: with a generator that keeps its draws below the bound, every
    request of every run is one of the seven of the catalogue, its tag
    taken from [tags] and its item from [item_ids]; the only POST is the
    one to the cart, for one item. *)
Theorem requests_catalogued
  (G : generator) (srv : server) (file : locustfile)
  (schedule : list event) (g : gen_state G) (u : nat) (r : request) :
  in_range G ->
  In (u, r) (sent (run G srv file schedule (fresh G g))) ->
  catalogued r
  /\ (verb r = "POST"%string -> exists item_id, In item_id item_ids /\ r = post_cart item_id).
Proof.
  intros Hr Hin. rewrite UserFacts.run_sent in Hin. cbn [sent rng fresh app] in Hin.
  pose proof (trace_catalogued G file schedule g u r Hr Hin) as Hc.
  split; [exact Hc|]. intros Hv.
  destruct Hc as [E|[E|[[x [Hx E]]|[[x [Hx E]]|[[x [Hx E]]|[E|E]]]]]]; subst r;
    try discriminate.
  exists x. split; [exact Hx | reflexivity].
Qed.

Lemma counting_in_range : in_range counting.
Proof. intros n g Hn. cbn. apply Z.mod_pos_bound. exact Hn. Qed.

Lemma requests_catalogued_witness :
  catalogued (post_cart "a0eebc99-9c0b-4ef8-bb6d-6bb9bd380a11")
  /\ (verb (post_cart "a0eebc99-9c0b-4ef8-bb6d-6bb9bd380a11") = "POST"%string ->
      exists item_id,
        In item_id item_ids /\ post_cart "a0eebc99-9c0b-4ef8-bb6d-6bb9bd380a11" = post_cart item_id).
Proof.
  apply (requests_catalogued counting always_down Pattern [ Cycle 3 add_to_cart ] 0 3%nat).
  - exact counting_in_range.
  - vm_compute. left. reflexivity.
Defined.

(** ** The cart a user keeps track of *)

Ltac run_user_method :=
  unfold after, run_task, on_start, bind, ret, assign, random_choice, random_randint,
    client_get, client_post, client_send, track_item, set_user, set_sent, set_rng;
  cbn [sent rng users fst snd].

Lemma on_start_users (G : generator) (file : locustfile) (u : nat) (w : world G) :
  users (after (on_start G file u) w)
  = match file with
    | Basic => users w
    | Pattern =>
        fun v =>
          if Nat.eqb v u
          then Some {| session_id :=
                         ("session_"
                          ++ NilZero.string_of_int
                               (Z.to_int (1000 + fst (randbelow G (9999 - 1000 + 1) (rng w)))))%string;
                       cart_items := [];
                       has_items_in_cart := false |}
          else users w v
    end.
Proof.
  destruct file; run_user_method; [reflexivity|].
  destruct (randbelow G (9999 - 1000 + 1) (rng w)). reflexivity.
Qed.

Lemma run_task_users
  (G : generator) (srv : server) (file : locustfile) (u : nat) (t : task) (w : world G) :
  users (after (run_task G srv file u t) w)
  = match t, file, users w u with
    | add_to_cart, Pattern, Some a =>
        let item_id :=
          nth (Z.to_nat (fst (randbelow G (Z.of_nat (List.length item_ids)) (rng w))))
            item_ids ""%string in
        if srv (sent w ++ [(u, post_cart item_id)])%list =? 200
        then fun v =>
               if Nat.eqb v u
               then Some {| session_id := session_id a;
                            cart_items := (cart_items a ++ [item_id])%list;
                            has_items_in_cart := true |}
               else users w v
        else users w
    | _, _, _ => users w
    end.
Proof.
  destruct t; run_user_method; try reflexivity.
  - destruct (randbelow G (Z.of_nat (List.length tags)) (rng w)). reflexivity.
  - destruct (randbelow G (Z.of_nat (List.length item_ids)) (rng w)). reflexivity.
  - destruct (randbelow G (Z.of_nat (List.length item_ids)) (rng w)) as [i g].
    cbn [sent rng users fst snd].
    destruct file; [destruct (users w u); reflexivity|].
    unfold post_cart. cbv zeta.
    destruct (srv _ =? 200).
    + cbn [users]. destruct (users w u); reflexivity.
    + destruct (users w u); reflexivity.
Qed.

Lemma accepted_later (srv : server) (history more : list (nat * request)) (u : nat) (i : string) :
  accepted srv history u i -> accepted srv (history ++ more) u i.
Proof.
  intros [before [later [E H]]]. exists before, (later ++ more)%list.
  split; [|exact H]. rewrite E, <- app_assoc. reflexivity.
Qed.

Lemma cart_consistent_event
  (G : generator) (srv : server) (file : locustfile) (e : event) (w : world G) :
  cart_consistent srv w -> cart_consistent srv (run_event G srv file e w).
Proof.
  intros Inv v a Hv. rewrite UserFacts.run_event_sent.
  destruct e as [u|u t]; cbn [run_event] in Hv.
  - rewrite on_start_users in Hv. cbn [event_requests]. rewrite app_nil_r.
    destruct file; [apply Inv; exact Hv|].
    destruct (Nat.eqb v u); [|apply Inv; exact Hv].
    inversion Hv; subst. cbn. split; [split; [discriminate|congruence]|].
    intros i [].
  - rewrite run_task_users in Hv. cbn [event_requests].
    assert (Keep : users w v = Some a ->
                   (has_items_in_cart a = true <-> cart_items a <> [])
                   /\ (forall i, In i (cart_items a) ->
                         accepted srv (sent w ++ [(u, request_of G t (rng w))]) v i)).
    { intros H. destruct (Inv v a H) as [Hflag Hitems]. split; [exact Hflag|].
      intros i Hi. apply accepted_later. apply Hitems. exact Hi. }
    destruct t; try (apply Keep; exact Hv).
    destruct file; [apply Keep; exact Hv|].
    destruct (users w u) as [a0|] eqn:Eu; [|apply Keep; exact Hv].
    cbv zeta in Hv.
    destruct (srv _ =? 200) eqn:Es; [|apply Keep; exact Hv].
    destruct (Nat.eqb v u) eqn:Ev; [|apply Keep; exact Hv].
    apply Nat.eqb_eq in Ev. subst v. inversion Hv; subst. cbn [cart_items has_items_in_cart].
    split.
    + split; [intros _ E; apply app_eq_nil in E; destruct E; discriminate | reflexivity].
    + intros i Hi. apply in_app_or in Hi. destruct Hi as [Hi|[<-|[]]].
      * apply accepted_later. apply (Inv u a0 Eu). exact Hi.
      * cbn [request_of]. eexists (sent w), []. split; [reflexivity|].
        apply Z.eqb_eq. exact Es.
Qed.

(** X11: in every run of the pattern files, and of [locustfile.py], the
    attributes of a user agree with what happened: [has_items_in_cart] is
    set exactly when [cart_items] is not empty, and every item of
    [cart_items] was posted to the cart by that user and answered with
    status 200. *)
Theorem cart_tracks_accepted_posts
  (G : generator) (srv : server) (file : locustfile)
  (schedule : list event) (g : gen_state G) :
  cart_consistent srv (run G srv file schedule (fresh G g)).
Proof.
  assert (Gen : forall w, cart_consistent srv w -> cart_consistent srv (run G srv file schedule w)).
  { induction schedule as [|e rest IH]; intros w Inv; [exact Inv|].
    change (run G srv file (e :: rest) w) with (run G srv file rest (run_event G srv file e w)).
    apply IH. apply cart_consistent_event. exact Inv. }
  apply Gen. intros u a H. discriminate.
Qed.

(** X12: [locustfile.py] keeps nothing on its users: whatever the
    schedule and the replies, a run leaves the attributes of every user as
    they were. *)
Theorem basic_users_keep_no_state
  (G : generator) (srv : server) (schedule : list event) (w : world G) :
  users (run G srv Basic schedule w) = users w.
Proof.
  revert w. induction schedule as [|e rest IH]; intros w; [reflexivity|].
  change (run G srv Basic (e :: rest) w) with (run G srv Basic rest (run_event G srv Basic e w)).
  rewrite IH. destruct e as [u|u t]; cbn [run_event].
  - rewrite on_start_users. reflexivity.
  - rewrite run_task_users. destruct t; reflexivity.
Qed.

Lemma cart_tracks_accepted_posts_witness :
  accepted always_ok
    (sent (run counting always_ok Pattern [ Start 0; Cycle 0 add_to_cart ] (fresh counting 0)))
    0 "3395a43e-5d8d-4d79-ac8c-0d58e637d5e8".
Proof.
  pose proof (cart_tracks_accepted_posts counting always_ok Pattern
                [ Start 0; Cycle 0 add_to_cart ] 0) as H.
  destruct (H 0%nat _ eq_refl) as [_ Hitems].
  apply Hitems. left. reflexivity.
Defined.

(** * The runner script *)

(** X13: for the patterns constant, step, spike and ramp the options
    [--users], [--spawn-rate] and [--duration] change nothing in the
    command the script launches: it is headless, also with [--web], and
    its run time is 600s. *)
Theorem pattern_run_ignores_load_options (sys_executable : string) (a b : RunLoadTest.args) :
  RunLoadTest.pattern a <> RunLoadTest.basic ->
  RunLoadTest.pattern b = RunLoadTest.pattern a ->
  RunLoadTest.host b = RunLoadTest.host a ->
  RunLoadTest.web b = RunLoadTest.web a ->
  RunLoadTest.csv b = RunLoadTest.csv a ->
  RunLoadTest.command sys_executable b = RunLoadTest.command sys_executable a
  /\ nth_error (RunLoadTest.command sys_executable a) 4
     = Some (RunLoadTest.locustfile_path (RunLoadTest.pattern a))
  /\ nth_error (RunLoadTest.command sys_executable a) 5 = Some "--headless"%string
  /\ nth_error (RunLoadTest.command sys_executable a) 10 = Some "--run-time"%string
  /\ nth_error (RunLoadTest.command sys_executable a) 11 = Some "600s"%string.
Proof.
  intros Hp Ep Eh Ew Ec. unfold RunLoadTest.command. rewrite Ep, Eh, Ew, Ec.
  destruct (RunLoadTest.pattern a); try contradiction;
    (split; [reflexivity|]);
    destruct (RunLoadTest.csv a) as [prefix|]; try destruct (RunLoadTest.truthy (Some prefix));
    destruct (RunLoadTest.web a); repeat split.
Qed.

Lemma pattern_run_ignores_load_options_witness :
  nth_error
    (RunLoadTest.command "python3"
       {| RunLoadTest.pattern := RunLoadTest.spike; RunLoadTest.users := 500;
          RunLoadTest.spawn_rate := 50; RunLoadTest.duration := 60;
          RunLoadTest.host := "http://localhost:80"; RunLoadTest.web := true;
          RunLoadTest.csv := None; RunLoadTest.check_deps := false |}) 11
  = Some "600s"%string.
Proof.
  set (a := {| RunLoadTest.pattern := RunLoadTest.spike; RunLoadTest.users := 500;
               RunLoadTest.spawn_rate := 50; RunLoadTest.duration := 60;
               RunLoadTest.host := "http://localhost:80"%string; RunLoadTest.web := true;
               RunLoadTest.csv := None; RunLoadTest.check_deps := false |}).
  assert (Hp : RunLoadTest.pattern a <> RunLoadTest.basic) by discriminate.
  destruct (pattern_run_ignores_load_options "python3" a a Hp eq_refl eq_refl eq_refl eq_refl)
    as [_ [_ [_ [_ H]]]].
  exact H.
Defined.

(** After [parse_args] has returned the options, the script ends with
    status 0 exactly when the locustfile of the pattern exists, the
    installation of the dependencies, if asked for, did not end in an
    exception other than the two the script catches, and the load test
    exited with code 0; otherwise it ends with status 1. *)
Lemma main_after_parsing
  (sys_executable : string) (path_exists : string -> bool)
  (subprocess_run : list (list string) -> RunLoadTest.proc_result) (a : RunLoadTest.args) :
  let main := RunLoadTest.main sys_executable path_exists subprocess_run (RunLoadTest.Namespace a) in
  let pip := if RunLoadTest.check_deps a then [ RunLoadTest.pip_install sys_executable ] else [] in
  (returned main [] = 0
   <-> path_exists (RunLoadTest.locustfile_path (RunLoadTest.pattern a)) = true
       /\ (RunLoadTest.check_deps a = true -> subprocess_run pip <> RunLoadTest.OtherError)
       /\ subprocess_run (pip ++ [ RunLoadTest.command sys_executable a ])
          = RunLoadTest.Completed 0)
  /\ (returned main [] = 0 \/ returned main [] = 1)
  /\ (path_exists (RunLoadTest.locustfile_path (RunLoadTest.pattern a)) = false ->
      after main [] = []).
Proof.
  cbv zeta. unfold returned, after, RunLoadTest.main. cbv beta iota.
  destruct (path_exists (RunLoadTest.locustfile_path (RunLoadTest.pattern a))) eqn:Ex;
    cbn [negb].
  2:{ cbn. split; [|split; [right; reflexivity | reflexivity]].
      split; [discriminate | intros [H _]; discriminate]. }
  unfold bind, ret, RunLoadTest.run_command.
  set (pip_cmd := RunLoadTest.pip_install sys_executable).
  set (cmd := RunLoadTest.command sys_executable a).
  assert (Test : forall launched : list (list string),
            (fst (match
                    match subprocess_run (launched ++ [cmd]) with
                    | RunLoadTest.Completed returncode =>
                        if returncode =? 0 then RunLoadTest.Done true else RunLoadTest.Done false
                    | RunLoadTest.FileNotFoundError => RunLoadTest.Done false
                    | RunLoadTest.OtherError => RunLoadTest.Propagated
                    end
                  with
                  | RunLoadTest.Done true => fun s : list (list string) => (0, s)
                  | _ => fun s : list (list string) => (1, s)
                  end (launched ++ [cmd])%list) = 0
             <-> subprocess_run (launched ++ [cmd]) = RunLoadTest.Completed 0)
            /\ (fst (match
                       match subprocess_run (launched ++ [cmd]) with
                       | RunLoadTest.Completed returncode =>
                           if returncode =? 0 then RunLoadTest.Done true else RunLoadTest.Done false
                       | RunLoadTest.FileNotFoundError => RunLoadTest.Done false
                       | RunLoadTest.OtherError => RunLoadTest.Propagated
                       end
                     with
                     | RunLoadTest.Done true => fun s : list (list string) => (0, s)
                     | _ => fun s : list (list string) => (1, s)
                     end (launched ++ [cmd])%list) = 0
                \/ fst (match
                          match subprocess_run (launched ++ [cmd]) with
                          | RunLoadTest.Completed returncode =>
                              if returncode =? 0 then RunLoadTest.Done true else RunLoadTest.Done false
                          | RunLoadTest.FileNotFoundError => RunLoadTest.Done false
                          | RunLoadTest.OtherError => RunLoadTest.Propagated
                          end
                        with
                        | RunLoadTest.Done true => fun s : list (list string) => (0, s)
                        | _ => fun s : list (list string) => (1, s)
                        end (launched ++ [cmd])%list) = 1)).
  { intros launched.
    destruct (subprocess_run (launched ++ [cmd])) as [rc| |].
    - destruct (Z.eqb_spec rc 0) as [->|Hrc]; cbn [fst].
      + split; [split; reflexivity | left; reflexivity].
      + split; [split; [discriminate | intros H; inversion H; contradiction] | right; reflexivity].
    - cbn [fst]. split; [split; discriminate | right; reflexivity].
    - cbn [fst]. split; [split; discriminate | right; reflexivity]. }
  destruct (RunLoadTest.check_deps a); cbn [fst snd].
  - destruct (subprocess_run ([] ++ [pip_cmd])) as [rc| |] eqn:Epip; cbn [app] in Epip |- *.
    + destruct (Test [pip_cmd]) as [T1 T2]. cbn [app] in T1, T2.
      rewrite Epip. destruct (rc =? 0); cbn [fst snd].
      * split; [|split; [exact T2 | discriminate]].
        rewrite T1. split; [intros H; repeat split; [discriminate | exact H] | intros [_ [_ H]]; exact H].
      * split; [|split; [exact T2 | discriminate]].
        rewrite T1. split; [intros H; repeat split; [discriminate | exact H] | intros [_ [_ H]]; exact H].
    + destruct (Test [pip_cmd]) as [T1 T2]. cbn [app] in T1, T2.
      rewrite Epip. cbn [fst snd].
      split; [|split; [exact T2 | discriminate]].
      rewrite T1. split; [intros H; repeat split; [discriminate | exact H] | intros [_ [_ H]]; exact H].
    + rewrite Epip. cbn [fst].
      split; [|split; [right; reflexivity | discriminate]].
      split; [discriminate | intros [_ [H _]]; exfalso; apply H; reflexivity].
  - destruct (Test []) as [T1 T2]. cbn [app] in T1, T2 |- *.
    split; [|split; [exact T2 | discriminate]].
    rewrite T1. split; [intros H; repeat split; [discriminate | exact H] | intros [_ [_ H]]; exact H].
Qed.

